(** * pokemon_server: the MCP record service of [src/pokemon_server/server.py]

    The server keeps one module-level dictionary, [POKEMON_DATA], and
    registers four handlers on it: [list_resources], [read_resource],
    [list_tools] and [call_tool].  This development embeds the handlers
    and the Python built-ins they call ([str.lower], [str.replace],
    dictionary subscription, [json.dumps] with [indent=2]) and proves the
    properties of the specification about them.

    Conventions of the embedding.
    - A Python [str] is a [string]; a character is the code point
      [0..255] it denotes (so the e-acute of the description is the single
      character 233).  Strings with code points above 255 are outside the
      model.
    - Python values are the type [value]: [None], booleans, integers,
      strings, lists and string-keyed dictionaries (floats are left out).
      A dictionary is an association list in insertion order.
    - A handler is a computation in the monad [M]: it receives the
      module's global store and returns a result or a raised exception,
      together with the store it leaves behind.
    - [pydantic]'s [AnyUrl] is carried as the string it is built from or
      printed to ([str(uri)]); URL validation and normalisation belong to
      that library. *)

From Stdlib Require Import String Ascii List ZArith Arith Bool Lia.
From Stdlib Require Import DecimalString DecimalFacts DecimalPos.
Import ListNotations.

Local Open Scope list_scope.
Local Open Scope string_scope.

(* ------------------------------------------------------------------ *)
(** * Python string methods *)

Module PyStr.

(** The characters [str.lower] changes among the code points below 256:
    [A-Z] and the Latin-1 capitals [0xC0-0xDE], the multiplication sign
    [0xD7] apart. *)
Definition is_upper (c : ascii) : bool :=
  let n := nat_of_ascii c in
  (((65 <=? n) && (n <=? 90))
   || ((192 <=? n) && (n <=? 222) && negb (n =? 215)))%nat.

Definition lower_char (c : ascii) : ascii :=
  if is_upper c then ascii_of_nat (nat_of_ascii c + 32) else c.

(** [s.lower()] *)
Fixpoint lower (s : string) : string :=
  match s with
  | EmptyString => EmptyString
  | String c s' => String (lower_char c) (lower s')
  end.

(** [s.startswith(p)] *)
Fixpoint startswith (p s : string) : bool :=
  match p, s with
  | EmptyString, _ => true
  | String a p', String b s' => Ascii.eqb a b && startswith p' s'
  | String _ _, EmptyString => false
  end.

(** The scan of [s.replace(old, new)] for a non-empty [old]: left to
    right, every occurrence found is replaced and the scan resumes behind
    it, so occurrences never overlap.  [skip] counts the characters of the
    occurrence just replaced that are still to be passed over. *)
Fixpoint replace_from (old new : string) (skip : nat) (s : string) : string :=
  match s with
  | EmptyString => EmptyString
  | String c s' =>
      match skip with
      | S k => replace_from old new k s'
      | O =>
          if startswith old s
          then new ++ replace_from old new (String.length old - 1) s'
          else String c (replace_from old new 0 s')
      end
  end.

(** For an empty [old] Python puts [new] before every character and at
    the end. *)
Fixpoint interleave (new s : string) : string :=
  match s with
  | EmptyString => new
  | String c s' => new ++ String c (interleave new s')
  end.

(** [s.replace(old, new)] *)
Definition replace (old new s : string) : string :=
  match old with
  | EmptyString => interleave new s
  | String _ _ => replace_from old new 0 s
  end.

(** [s1] and [s2] are the same string up to letter case: the same length,
    and at each position the same character or the two cases of one
    letter (the capital and the character 32 code points above it). *)
Definition case_pair (u l : ascii) : bool :=
  is_upper u && (nat_of_ascii l =? nat_of_ascii u + 32)%nat.

Definition same_letter (a b : ascii) : bool :=
  Ascii.eqb a b || case_pair a b || case_pair b a.

Fixpoint eq_upto_case (s1 s2 : string) : bool :=
  match s1, s2 with
  | EmptyString, EmptyString => true
  | String a s1', String b s2' => same_letter a b && eq_upto_case s1' s2'
  | _, _ => false
  end.

(** [sub] occurs in [s]. *)
Definition occurs (sub s : string) : Prop :=
  exists a b, s = a ++ sub ++ b.

(** [sub in s] *)
Fixpoint contains (sub s : string) : bool :=
  match s with
  | EmptyString => startswith sub EmptyString
  | String _ s' => startswith sub s || contains sub s'
  end.

End PyStr.

(* ------------------------------------------------------------------ *)
(** * Python values and [json.dumps] *)

Module Json.

#[warnings="-register-all"]
Inductive value : Type :=
| VNone
| VBool (b : bool)
| VInt (z : Z)
| VStr (s : string)
| VList (l : list value)
| VDict (d : list (string * value)).

(** [k in d] and [d[k]] on a dictionary. *)
Fixpoint dict_get {A : Type} (d : list (string * A)) (k : string) : option A :=
  match d with
  | [] => None
  | (k', v) :: d' => if String.eqb k k' then Some v else dict_get d' k
  end.

Definition dict_mem {A : Type} (d : list (string * A)) (k : string) : bool :=
  match dict_get d k with Some _ => true | None => false end.

Definition dquote : ascii := ascii_of_nat 34.
Definition backslash : ascii := ascii_of_nat 92.
Definition newline : ascii := ascii_of_nat 10.

Definition hex_digit (n : nat) : ascii :=
  if (n <? 10)%nat then ascii_of_nat (48 + n) else ascii_of_nat (87 + n).

(** [ESCAPE_ASCII] of [json.encoder]: the quote, the backslash and every
    character outside [' '..'~'] are escaped, five control characters by
    a letter and the others as [\u00xx]. *)
Definition escape_char (c : ascii) : string :=
  let n := nat_of_ascii c in
  if (n =? 34)%nat then String backslash (String dquote EmptyString)
  else if (n =? 92)%nat then String backslash (String backslash EmptyString)
  else if (n =? 8)%nat then String backslash "b"
  else if (n =? 12)%nat then String backslash "f"
  else if (n =? 10)%nat then String backslash "n"
  else if (n =? 13)%nat then String backslash "r"
  else if (n =? 9)%nat then String backslash "t"
  else if ((n <? 32) || (126 <? n))%nat
       then String backslash
              (String "u" (String "0" (String "0"
                 (String (hex_digit (n / 16))
                    (String (hex_digit (n mod 16)) EmptyString)))))
  else String c EmptyString.

Fixpoint escape (s : string) : string :=
  match s with
  | EmptyString => EmptyString
  | String c s' => escape_char c ++ escape s'
  end.

(** [py_encode_basestring_ascii] *)
Definition encode_str (s : string) : string :=
  String dquote (escape s ++ String dquote EmptyString).

(** [int.__repr__].  The printer is total: CPython's limit on the number
    of digits of an integer it converts, and the recursion limit the encoder
    can meet on deep nesting, are not modelled, so that where [json.dumps]
    returns a text it is the one computed here. *)
Definition encode_int (z : Z) : string :=
  NilZero.string_of_int (Z.to_int z).

Fixpoint spaces (n : nat) : string :=
  match n with
  | O => EmptyString
  | S n' => String " " (spaces n')
  end.

(** ['\n' + _indent * _current_indent_level] *)
Definition newline_indent (indent level : nat) : string :=
  String newline (spaces (indent * level)).

(** [_iterencode] of [json.encoder] with an integer [indent] and the
    default separators ([','] and [': ']); [level] is
    [_current_indent_level]. *)
Fixpoint iterencode (indent level : nat) (v : value) : string :=
  match v with
  | VNone => "null"
  | VBool true => "true"
  | VBool false => "false"
  | VInt z => encode_int z
  | VStr s => encode_str s
  | VList [] => "[]"
  | VList (x :: xs) =>
      "[" ++ newline_indent indent (S level)
          ++ iterencode indent (S level) x
          ++ (fix rest (l : list value) : string :=
                match l with
                | [] => EmptyString
                | y :: l' =>
                    "," ++ newline_indent indent (S level)
                        ++ iterencode indent (S level) y ++ rest l'
                end) xs
          ++ newline_indent indent level ++ "]"
  | VDict [] => "{}"
  | VDict ((k, x) :: xs) =>
      "{" ++ newline_indent indent (S level)
          ++ encode_str k ++ ": " ++ iterencode indent (S level) x
          ++ (fix rest (l : list (string * value)) : string :=
                match l with
                | [] => EmptyString
                | (k', y) :: l' =>
                    "," ++ newline_indent indent (S level)
                        ++ encode_str k' ++ ": "
                        ++ iterencode indent (S level) y ++ rest l'
                end) xs
          ++ newline_indent indent level ++ "}"
  end.

(** [json.dumps(v, indent=indent)] *)
Definition dumps (v : value) (indent : nat) : string :=
  iterencode indent 0 v.

(** ** Decoding

    [loads] is [json.loads] on the documents that denote a [value]:
    the JSON grammar without fractions and exponents, and with [\u]
    escapes below 256.  It is what a client does with the text the
    handlers return. *)

Definition is_ws (c : ascii) : bool :=
  let n := nat_of_ascii c in
  ((n =? 32) || (n =? 10) || (n =? 13) || (n =? 9))%nat.

Fixpoint skip_ws (s : string) : string :=
  match s with
  | EmptyString => EmptyString
  | String c s' => if is_ws c then skip_ws s' else s
  end.

Definition hex_val (c : ascii) : option nat :=
  let n := nat_of_ascii c in
  if ((48 <=? n) && (n <=? 57))%nat then Some (n - 48)
  else if ((97 <=? n) && (n <=? 102))%nat then Some (n - 87)
  else if ((65 <=? n) && (n <=? 70))%nat then Some (n - 55)
  else None.

Definition hex4 (a b c d : ascii) : option nat :=
  match hex_val a, hex_val b, hex_val c, hex_val d with
  | Some x, Some y, Some z, Some w => Some (((x * 16 + y) * 16 + z) * 16 + w)
  | _, _, _, _ => None
  end.

(** The character a one-letter escape stands for. *)
Definition unescape_letter (e : ascii) : option ascii :=
  let n := nat_of_ascii e in
  if (n =? 34)%nat then Some dquote
  else if (n =? 92)%nat then Some backslash
  else if (n =? 47)%nat then Some "/"%char
  else if (n =? 98)%nat then Some (ascii_of_nat 8)
  else if (n =? 102)%nat then Some (ascii_of_nat 12)
  else if (n =? 110)%nat then Some newline
  else if (n =? 114)%nat then Some (ascii_of_nat 13)
  else if (n =? 116)%nat then Some (ascii_of_nat 9)
  else None.

Definition cons_char (c : ascii) (r : option (string * string))
  : option (string * string) :=
  match r with
  | Some (body, rest) => Some (String c body, rest)
  | None => None
  end.

(** The string behind an opening quote: its characters up to the
    closing quote, and the text that follows. *)
Fixpoint scan_string (s : string) : option (string * string) :=
  match s with
  | EmptyString => None
  | String c s' =>
      if Ascii.eqb c dquote then Some (EmptyString, s')
      else if Ascii.eqb c backslash then
        match s' with
        | EmptyString => None
        | String e s'' =>
            if Ascii.eqb e "u" then
              match s'' with
              | String h1 (String h2 (String h3 (String h4 r))) =>
                  match hex4 h1 h2 h3 h4 with
                  | Some n =>
                      if (n <? 256)%nat
                      then cons_char (ascii_of_nat n) (scan_string r)
                      else None
                  | None => None
                  end
              | _ => None
              end
            else
              match unescape_letter e with
              | Some x => cons_char x (scan_string s'')
              | None => None
              end
        end
      else if (nat_of_ascii c <? 32)%nat then None
      else cons_char c (scan_string s')
  end.

Definition is_digit (c : ascii) : bool :=
  let n := nat_of_ascii c in ((48 <=? n) && (n <=? 57))%nat.

Fixpoint span_digits (s : string) : string * string :=
  match s with
  | EmptyString => (EmptyString, EmptyString)
  | String c s' =>
      if is_digit c
      then let (ds, rest) := span_digits s' in (String c ds, rest)
      else (EmptyString, s)
  end.

Fixpoint digits_value (acc : Z) (ds : string) : Z :=
  match ds with
  | EmptyString => acc
  | String c ds' => digits_value (acc * 10 + Z.of_nat (nat_of_ascii c - 48)) ds'
  end.

Definition scan_int (s : string) : option (Z * string) :=
  let (neg, s1) :=
    match s with
    | String c r => if Ascii.eqb c "-" then (true, r) else (false, s)
    | EmptyString => (false, s)
    end in
  let (ds, rest) := span_digits s1 in
  let fraction :=
    match rest with
    | String c _ => Ascii.eqb c "." || Ascii.eqb c "e" || Ascii.eqb c "E"
    | EmptyString => false
    end in
  match ds with
  | EmptyString => None
  | String d ds' =>
      if (Ascii.eqb d "0" && negb (String.eqb ds' EmptyString)) || fraction
      then None
      else
        let z := digits_value 0 ds in
        Some (if neg then Z.opp z else z, rest)
  end.

(** [d[k] = v]: a key already there keeps its place. *)
Fixpoint dict_set {A : Type} (d : list (string * A)) (k : string) (v : A)
  : list (string * A) :=
  match d with
  | [] => [(k, v)]
  | (k', v') :: d' =>
      if String.eqb k k' then (k, v) :: d' else (k', v') :: dict_set d' k v
  end.

Definition expect (lit : string) (v : value) (s : string)
  : option (value * string) :=
  if PyStr.startswith lit s
  then Some (v, substring (String.length lit) (String.length s) s)
  else None.

(** The elements of an array behind its opening bracket, and the members
    of an object behind its opening brace; [scan] reads one value and [n]
    bounds the number of items. *)
Fixpoint scan_elements (scan : string -> option (value * string))
         (n : nat) (acc : list value) (t : string) : option (value * string) :=
  match n with
  | O => None
  | S n' =>
      match scan t with
      | None => None
      | Some (x, t') =>
          match skip_ws t' with
          | String "," t'' => scan_elements scan n' (acc ++ [x])%list t''
          | String "]" rest => Some (VList (acc ++ [x])%list, rest)
          | _ => None
          end
      end
  end.

Fixpoint scan_members (scan : string -> option (value * string))
         (n : nat) (acc : list (string * value)) (t : string)
  : option (value * string) :=
  match n with
  | O => None
  | S n' =>
      match skip_ws t with
      | String q t1 =>
          if Ascii.eqb q dquote then
            match scan_string t1 with
            | None => None
            | Some (k, t2) =>
                match skip_ws t2 with
                | String ":" t3 =>
                    match scan t3 with
                    | None => None
                    | Some (x, t4) =>
                        match skip_ws t4 with
                        | String "," t5 => scan_members scan n' (dict_set acc k x) t5
                        | String "}" rest => Some (VDict (dict_set acc k x), rest)
                        | _ => None
                        end
                    end
                | _ => None
                end
            end
          else None
      | EmptyString => None
      end
  end.

(** One value at the head of [s]; [fuel] bounds the nesting depth and
    the number of items of an array or an object. *)
Fixpoint scan_value (fuel : nat) (s : string) : option (value * string) :=
  match fuel with
  | O => None
  | S fuel' =>
      match skip_ws s with
      | EmptyString => None
      | String c r =>
          if Ascii.eqb c dquote then
            match scan_string r with
            | Some (body, rest) => Some (VStr body, rest)
            | None => None
            end
          else if Ascii.eqb c "n" then expect "null" VNone (String c r)
          else if Ascii.eqb c "t" then expect "true" (VBool true) (String c r)
          else if Ascii.eqb c "f" then expect "false" (VBool false) (String c r)
          else if Ascii.eqb c "[" then
            match skip_ws r with
            | String "]" rest => Some (VList [], rest)
            | _ => scan_elements (scan_value fuel') fuel' [] r
            end
          else if Ascii.eqb c "{" then
            match skip_ws r with
            | String "}" rest => Some (VDict [], rest)
            | _ => scan_members (scan_value fuel') fuel' [] r
            end
          else
            match scan_int (String c r) with
            | Some (z, rest) => Some (VInt z, rest)
            | None => None
            end
      end
  end.

(** [json.loads(s)] *)
Definition loads (s : string) : option value :=
  match scan_value (S (String.length s)) s with
  | Some (v, rest) =>
      match skip_ws rest with
      | EmptyString => Some v
      | String _ _ => None
      end
  | None => None
  end.

End Json.

Import PyStr Json.

(* ------------------------------------------------------------------ *)
(** * Exceptions, results and the handler monad *)

(** The exceptions the handlers can raise.  [ValueError] is raised by the
    handlers themselves; the others come from the operations they use:
    [KeyError] from the subscription of a dictionary, [TypeError] from the
    subscription of a value that has no string subscript, [AttributeError]
    from [.lower()] on a value that is not a string, and [ValidationError]
    from the constructor of a [pydantic] model given a field of the wrong
    type. *)
Inductive exn : Type :=
| ValueError (msg : string)
| KeyError (key : string)
| TypeError
| AttributeError
| ValidationError.

Inductive result (A : Type) : Type :=
| Ok (a : A)
| Raise (e : exn).
Arguments Ok {A} a.
Arguments Raise {A} e.

(** The module's global state: the dictionary bound to [POKEMON_DATA]. *)
Definition store : Type := list (string * value).

Definition M (A : Type) : Type := store -> result A * store.

Definition ret {A : Type} (a : A) : M A := fun st => (Ok a, st).

Definition raise {A : Type} (e : exn) : M A := fun st => (Raise e, st).

Definition bind {A B : Type} (m : M A) (f : A -> M B) : M B :=
  fun st =>
    match m st with
    | (Ok a, st') => f a st'
    | (Raise e, st') => (Raise e, st')
    end.

(** Reading the global name [POKEMON_DATA]. *)
Definition load_POKEMON_DATA : M store := fun st => (Ok st, st).

Definition lift {A : Type} (r : result A) : M A := fun st => (r, st).

Declare Scope py_scope.
Delimit Scope py_scope with py.
Notation "x <- m ;; k" := (bind m (fun x => k))
  (at level 61, m at next level, right associativity) : py_scope.
Local Open Scope py_scope.

(** [v[k]] for a string [k]. *)
Definition getitem (v : value) (k : string) : result value :=
  match v with
  | VDict d =>
      match dict_get d k with
      | Some x => Ok x
      | None => Raise (KeyError k)
      end
  | _ => Raise TypeError
  end.

(** [v.lower()] *)
Definition lower_method (v : value) : result string :=
  match v with
  | VStr s => Ok (lower s)
  | _ => Raise AttributeError
  end.

(* ------------------------------------------------------------------ *)
(** * The server *)

(** [mcp.types.Resource], [Tool] and [TextContent], with the fields the
    handlers set. *)
Record Resource : Type := mkResource
  { uri : string; name : string; mimeType : string; description : string }.

Record Tool : Type := mkTool
  { tool_name : string; tool_description : string; inputSchema : value }.

Record TextContent : Type := mkTextContent
  { type : string; text : string }.

(** The value of the key ["pikachu"] in the literal of [POKEMON_DATA]. *)
Definition pikachu_record : value :=
  VDict
    [ ("name", VStr "Pikachu");
      ("type", VStr "Electric");
      ("description",
       VStr ("A Mouse Pok" ++ String (ascii_of_nat 233)
               "mon. It can generate electric attacks from the electric pouches located in both of its cheeks."));
      ("stats",
       VDict [ ("hp", VInt 35); ("attack", VInt 55);
               ("defense", VInt 40); ("speed", VInt 90) ]) ].

(** [POKEMON_DATA] (server.py, lines 8-20): the initial store. *)
Definition POKEMON_DATA : store := [ ("pikachu", pikachu_record) ].

(** One element of the comprehension of [list_resources]: the keyword
    arguments are evaluated in order, then [Resource] validates them
    ([name] has to be a string).  [AnyUrl(...)] is carried as the string of
    the f-string it is given: [pydantic]'s validation and normalisation of
    that string are not modelled, so the [uri] field is the one of the code
    where [AnyUrl] accepts the string and prints it unchanged, as it does for
    the keys of [POKEMON_DATA]. *)
Definition resource_of (pokemon_id : string) (data : value) : result Resource :=
  match getitem data "name" with
  | Raise e => Raise e
  | Ok (VStr n) =>
      Ok {| uri := "pokemon://" ++ pokemon_id;
            name := n;
            mimeType := "application/json";
            description := "Information about " ++ n |}
  | Ok _ => Raise ValidationError
  end.

Fixpoint resources_of (items : list (string * value)) : result (list Resource) :=
  match items with
  | [] => Ok []
  | (pokemon_id, data) :: items' =>
      match resource_of pokemon_id data with
      | Raise e => Raise e
      | Ok r =>
          match resources_of items' with
          | Raise e => Raise e
          | Ok rs => Ok (r :: rs)
          end
      end
  end.

(** [list_resources()] (lines 25-36). *)
Definition list_resources : M (list Resource) :=
  data <- load_POKEMON_DATA ;;
  lift (resources_of data).

(** [read_resource(uri)] (lines 38-46); [uri] is the string [str(uri)]. *)
Definition read_resource (uri : string) : M string :=
  let pokemon_id := replace "pokemon://" "" uri in
  data <- load_POKEMON_DATA ;;
  if negb (dict_mem data pokemon_id) then
    raise (ValueError ("Unknown Pokemon: " ++ pokemon_id))
  else
    data <- load_POKEMON_DATA ;;
    record <- lift (getitem (VDict data) pokemon_id) ;;
    ret (dumps record 2).

(** [list_tools()] (lines 48-67). *)
Definition list_tools : M (list Tool) :=
  ret [ {| tool_name := "get_stats";
           tool_description := "Get detailed stats for a specific Pokemon";
           inputSchema :=
             VDict
               [ ("type", VStr "object");
                 ("properties",
                  VDict
                    [ ("pokemon",
                       VDict
                         [ ("type", VStr "string");
                           ("description",
                            VStr "Name of the Pokemon (e.g., pikachu, charizard)") ]) ]);
                 ("required", VList [VStr "pokemon"]) ] |} ].

(** [call_tool(name, arguments)] (lines 68-90). *)
Definition call_tool (name : string) (arguments : value) : M (list TextContent) :=
  if String.eqb name "get_stats" then
    arg <- lift (getitem arguments "pokemon") ;;
    pokemon_name <- lift (lower_method arg) ;;
    data <- load_POKEMON_DATA ;;
    if negb (dict_mem data pokemon_name) then
      ret [ {| type := "text";
               text := dumps (VDict [ ("error",
                                       VStr ("Pokemon " ++ pokemon_name ++ " not found")) ]) 2 |} ]
    else
      data <- load_POKEMON_DATA ;;
      record <- lift (getitem (VDict data) pokemon_name) ;;
      n <- lift (getitem record "name") ;;
      data <- load_POKEMON_DATA ;;
      record <- lift (getitem (VDict data) pokemon_name) ;;
      st <- lift (getitem record "stats") ;;
      let stats := VDict [ ("name", n); ("stats", st) ] in
      ret [ {| type := "text"; text := dumps stats 2 |} ]
  else
    raise (ValueError ("Unknown tool: " ++ name)).

(** The requests the transport routes to the handlers, and what the
    caller gets back. *)
Inductive request : Type :=
| ListResources
| ReadResource (uri : string)
| ListTools
| CallTool (name : string) (arguments : value).

Inductive response : Type :=
| Resources (l : list Resource)
| Contents (body : string)
| Tools (l : list Tool)
| ToolResult (l : list TextContent).

Definition handle (r : request) : M response :=
  match r with
  | ListResources => l <- list_resources ;; ret (Resources l)
  | ReadResource u => b <- read_resource u ;; ret (Contents b)
  | ListTools => l <- list_tools ;; ret (Tools l)
  | CallTool n a => l <- call_tool n a ;; ret (ToolResult l)
  end.

(** The store after a sequence of requests. *)
Fixpoint serve (rs : list request) (st : store) : store :=
  match rs with
  | [] => st
  | r :: rs' => serve rs' (snd (handle r st))
  end.

(** What a handler returns when the module has just been loaded. *)
Definition run {A : Type} (m : M A) : result A := fst (m POKEMON_DATA).

(** Writing JSON text in statements: a line break, and a string between
    double quotes. *)
Definition nl : string := String newline EmptyString.

Definition quoted (s : string) : string :=
  String dquote (s ++ String dquote EmptyString).

(* ------------------------------------------------------------------ *)
(** * Conditions on a store *)

(** A record [list_resources] can describe: its ["name"] is a string. *)
Definition has_string_name (record : value) : bool :=
  match getitem record "name" with
  | Ok (VStr _) => true
  | _ => false
  end.

(** An entry whose key is its display name in lower case, as ["pikachu"]
    is for ["Pikachu"]. *)
Definition keyed_by_lower_name (entry : string * value) : bool :=
  match getitem (snd entry) "name" with
  | Ok (VStr n) => String.eqb (fst entry) (lower n)
  | _ => false
  end.

(** All characters of a text are line feeds or printable ASCII. *)
Definition plain_char (c : ascii) : bool :=
  let n := nat_of_ascii c in
  ((n =? 10) || ((32 <=? n) && (n <=? 126)))%nat.

Fixpoint plain_text (s : string) : bool :=
  match s with
  | EmptyString => true
  | String c s' => plain_char c && plain_text s'
  end.

(* ------------------------------------------------------------------ *)
(** * Well-formed values and the size of a value *)

(** The keys of a dictionary are pairwise different. *)
Fixpoint distinct (ks : list string) : bool :=
  match ks with
  | [] => true
  | k :: ks' => negb (existsb (String.eqb k) ks') && distinct ks'
  end.

(** A value as Python builds it: no dictionary in it has a key twice. *)
Fixpoint keys_unique (v : value) : bool :=
  match v with
  | VList l =>
      (fix all (l : list value) : bool :=
         match l with
         | [] => true
         | x :: l' => keys_unique x && all l'
         end) l
  | VDict d =>
      distinct (map fst d)
      && (fix all (d : list (string * value)) : bool :=
            match d with
            | [] => true
            | (_, x) :: d' => keys_unique x && all d'
            end) d
  | _ => true
  end.

(** The number of nodes of a value. *)
Fixpoint weight (v : value) : nat :=
  match v with
  | VList l =>
      S ((fix sum (l : list value) : nat :=
            match l with
            | [] => 0
            | x :: l' => weight x + sum l'
            end) l)
  | VDict d =>
      S ((fix sum (d : list (string * value)) : nat :=
            match d with
            | [] => 0
            | (_, x) :: d' => weight x + sum d'
            end) d)
  | _ => 1
  end.

(** The text [iterencode] writes behind the first item of a list or of a
    dictionary, up to the closing line. *)
Fixpoint list_rest (indent level : nat) (l : list value) : string :=
  match l with
  | [] => EmptyString
  | y :: l' =>
      "," ++ newline_indent indent (S level)
          ++ iterencode indent (S level) y ++ list_rest indent level l'
  end.

Fixpoint dict_rest (indent level : nat) (d : list (string * value)) : string :=
  match d with
  | [] => EmptyString
  | (k, y) :: d' =>
      "," ++ newline_indent indent (S level)
          ++ encode_str k ++ ": "
          ++ iterencode indent (S level) y ++ dict_rest indent level d'
  end.

(** What may stand behind a number: anything but a digit, a point or an
    exponent mark. *)
Definition ends_number (r : string) : bool :=
  match r with
  | EmptyString => true
  | String c _ =>
      negb (is_digit c || Ascii.eqb c "." || Ascii.eqb c "e" || Ascii.eqb c "E")
  end.

(** The number a decimal numeral denotes, read from the left. *)
Fixpoint uint_value (acc : Z) (u : Decimal.uint) : Z :=
  match u with
  | Decimal.Nil => acc
  | Decimal.D0 u' => uint_value (acc * 10 + 0) u'
  | Decimal.D1 u' => uint_value (acc * 10 + 1) u'
  | Decimal.D2 u' => uint_value (acc * 10 + 2) u'
  | Decimal.D3 u' => uint_value (acc * 10 + 3) u'
  | Decimal.D4 u' => uint_value (acc * 10 + 4) u'
  | Decimal.D5 u' => uint_value (acc * 10 + 5) u'
  | Decimal.D6 u' => uint_value (acc * 10 + 6) u'
  | Decimal.D7 u' => uint_value (acc * 10 + 7) u'
  | Decimal.D8 u' => uint_value (acc * 10 + 8) u'
  | Decimal.D9 u' => uint_value (acc * 10 + 9) u'
  end.

(** Induction on a value with the items of its lists and dictionaries. *)
Section ValueInduction.

Variable P : value -> Prop.
Hypothesis HNone : P VNone.
Hypothesis HBool : forall b, P (VBool b).
Hypothesis HInt : forall z, P (VInt z).
Hypothesis HStr : forall s, P (VStr s).
Hypothesis HList : forall l, Forall P l -> P (VList l).
Hypothesis HDict : forall d, Forall (fun kv => P (snd kv)) d -> P (VDict d).

Fixpoint value_nested_ind (v : value) : P v :=
  match v with
  | VNone => HNone
  | VBool b => HBool b
  | VInt z => HInt z
  | VStr s => HStr s
  | VList l =>
      HList l
        ((fix items (l : list value) : Forall P l :=
            match l with
            | [] => Forall_nil P
            | x :: l' => Forall_cons x (value_nested_ind x) (items l')
            end) l)
  | VDict d =>
      HDict d
        ((fix items (d : list (string * value))
            : Forall (fun kv => P (snd kv)) d :=
            match d with
            | [] => Forall_nil _
            | kv :: d' =>
                Forall_cons kv (value_nested_ind (snd kv)) (items d')
            end) d)
  end.

End ValueInduction.

(** [v] is read back from its text, whatever the indentation, the level
    and the text that follows. *)
Definition round_trips (v : value) : Prop :=
  forall (indent level fuel : nat) (r : string),
    keys_unique v = true ->
    weight v <= fuel ->
    ends_number r = true ->
    scan_value fuel (iterencode indent level v ++ r) = Some (v, r).


(* ------------------------------------------------------------------ *)
(** * Facts about the string methods *)

Section StringFacts.

Lemma append_assoc (a b c : string) : (a ++ b) ++ c = a ++ (b ++ c).
Proof. induction a as [|x a IH]; simpl; [reflexivity | now rewrite IH]. Qed.

Lemma length_append (a b : string) :
  String.length (a ++ b) = String.length a + String.length b.
Proof. induction a as [|x a IH]; simpl; [reflexivity | now rewrite IH]. Qed.

Lemma startswith_app (p s : string) : startswith p (p ++ s) = true.
Proof.
  induction p as [|a p IH]; simpl; [reflexivity|].
  now rewrite Ascii.eqb_refl, IH.
Qed.

Lemma startswith_split (p s : string) :
  startswith p s = true -> exists r, s = p ++ r.
Proof.
  revert s; induction p as [|a p IH]; intros s H; simpl in *.
  - now exists s.
  - destruct s as [|b s]; [discriminate|].
    apply andb_true_iff in H as [Hab Hp].
    apply Ascii.eqb_eq in Hab; subst b.
    destruct (IH _ Hp) as [r ->]. now exists r.
Qed.

Lemma contains_occurs (sub s : string) :
  contains sub s = true <-> occurs sub s.
Proof.
  split.
  - induction s as [|c s IH]; simpl; intros H.
    + destruct (startswith_split _ _ H) as [r Hr].
      exists "", r. exact Hr.
    + apply orb_true_iff in H as [H | H].
      * destruct (startswith_split _ _ H) as [r Hr].
        exists "", r. exact Hr.
      * destruct (IH H) as (a & b & ->).
        now exists (String c a), b.
  - intros (a & b & ->).
    induction a as [|c a IH]; simpl.
    + destruct (sub ++ b) as [|c t] eqn:E.
      * destruct sub; [reflexivity | discriminate].
      * simpl. rewrite <- E, startswith_app. reflexivity.
    + rewrite IH. apply orb_true_r.
Qed.

Lemma occurs_length (sub s : string) :
  occurs sub s -> String.length sub <= String.length s.
Proof.
  intros (a & b & ->). rewrite !length_append. lia.
Qed.

Lemma contains_short (sub s : string) :
  String.length s < String.length sub -> contains sub s = false.
Proof.
  intros H. destruct (contains sub s) eqn:E; [|reflexivity].
  apply contains_occurs, occurs_length in E. lia.
Qed.

Lemma replace_from_skip (old new p s : string) :
  replace_from old new (String.length p) (p ++ s) = replace_from old new 0 s.
Proof.
  induction p as [|c p IH]; simpl; [reflexivity | exact IH].
Qed.

Lemma replace_match (old new s : string) :
  old <> "" -> replace old new (old ++ s) = new ++ replace old new s.
Proof.
  intros Hne. destruct old as [|c o]; [congruence|].
  unfold replace.
  change (String c o ++ s) with (String c (o ++ s)).
  cbn [replace_from].
  change (String c (o ++ s)) with (String c o ++ s).
  rewrite startswith_app.
  replace (String.length (String c o) - 1) with (String.length o)
    by (simpl; lia).
  now rewrite replace_from_skip.
Qed.

Lemma replace_nomatch (old new : string) (c : ascii) (s : string) :
  startswith old (String c s) = false ->
  replace old new (String c s) = String c (replace old new s).
Proof.
  intros H. unfold replace.
  destruct old as [|a o]; [discriminate|].
  cbn [replace_from]. now rewrite H.
Qed.

Lemma replace_nil (old new : string) : old <> "" -> replace old new "" = "".
Proof. unfold replace. destruct old; [congruence | reflexivity]. Qed.

Lemma replace_absent (old new s : string) :
  contains old s = false -> replace old new s = s.
Proof.
  induction s as [|c s IH]; intros H.
  - apply replace_nil. intros ->. discriminate.
  - simpl in H. apply orb_false_iff in H as [H1 H2].
    rewrite replace_nomatch by exact H1. now rewrite IH.
Qed.

Lemma startswith_app_long (p x y : string) :
  String.length p <= String.length x ->
  startswith p (x ++ y) = startswith p x.
Proof.
  revert x; induction p as [|a p IH]; intros x Hlen; [reflexivity|].
  destruct x as [|b x]; simpl in *; [lia|].
  rewrite IH by lia. reflexivity.
Qed.

(** No proper suffix of the scheme prefix is a prefix of it, so an
    occurrence cannot begin less than ten characters before another. *)
Lemma scheme_no_overlap (x b : string) :
  x <> "" -> String.length x < 10 ->
  startswith "pokemon://" (x ++ "pokemon://" ++ b) = false.
Proof.
  intros Hne Hlen.
  destruct (startswith "pokemon://" (x ++ "pokemon://" ++ b)) eqn:E;
    [exfalso | reflexivity].
  apply startswith_split in E as [r Hr].
  do 10 (destruct x as [|? x]; [simpl in Hr; congruence|]).
  simpl in Hlen. lia.
Qed.

Lemma replace_scheme_app (a b : string) :
  contains "pokemon://" a = false ->
  replace "pokemon://" "" (a ++ "pokemon://" ++ b)
  = a ++ replace "pokemon://" "" b.
Proof.
  induction a as [|c a IH]; intros H.
  - change ("" ++ "pokemon://" ++ b) with ("pokemon://" ++ b).
    rewrite replace_match by discriminate. reflexivity.
  - simpl in H. apply orb_false_iff in H as [H1 H2].
    change (String c a ++ "pokemon://" ++ b)
      with (String c (a ++ "pokemon://" ++ b)).
    rewrite replace_nomatch.
    + rewrite IH by exact H2. reflexivity.
    + change (String c (a ++ "pokemon://" ++ b))
        with (String c a ++ "pokemon://" ++ b).
      destruct (Nat.lt_ge_cases (String.length (String c a)) 10) as [Hs | Hl].
      * apply scheme_no_overlap; [discriminate | exact Hs].
      * rewrite startswith_app_long by exact Hl. exact H1.
Qed.

(** The closed form: a string cut at the occurrences of the prefix is
    put together again without them. *)
Lemma replace_scheme_concat (pieces : list string) :
  forallb (fun p => negb (contains "pokemon://" p)) pieces = true ->
  replace "pokemon://" "" (String.concat "pokemon://" pieces)
  = String.concat "" pieces.
Proof.
  induction pieces as [|x [|y l] IH]; intros H.
  - reflexivity.
  - cbn [String.concat]. apply replace_absent.
    cbn [forallb] in H. apply andb_true_iff in H as [H _].
    now apply negb_true_iff in H.
  - cbn [forallb] in H. apply andb_true_iff in H as [Hx Hl].
    apply negb_true_iff in Hx.
    change (String.concat "pokemon://" (x :: y :: l))
      with (x ++ "pokemon://" ++ String.concat "pokemon://" (y :: l)).
    change (String.concat "" (x :: y :: l))
      with (x ++ "" ++ String.concat "" (y :: l)).
    rewrite replace_scheme_app by exact Hx.
    rewrite IH by exact Hl. reflexivity.
Qed.

End StringFacts.

Section CaseFacts.

Lemma case_pair_lower (u l : ascii) :
  case_pair u l = true -> lower_char u = l /\ lower_char l = l.
Proof.
  unfold case_pair, lower_char. intros H.
  apply andb_true_iff in H as [Hu Hl]. apply Nat.eqb_eq in Hl.
  rewrite Hu, <- Hl, ascii_nat_embedding. split; [reflexivity|].
  assert (Hn : is_upper l = false).
  { unfold is_upper in *. rewrite Hl.
    set (n := nat_of_ascii u) in *. clearbody n.
    repeat match type of Hu with
           | context [(?a <=? ?b)%nat] => destruct (Nat.leb_spec a b)
           | context [(?a =? ?b)%nat] => destruct (Nat.eqb_spec a b)
           end;
      simpl in Hu; try discriminate;
      repeat match goal with
             | |- context [(?a <=? ?b)%nat] => destruct (Nat.leb_spec a b)
             | |- context [(?a =? ?b)%nat] => destruct (Nat.eqb_spec a b)
             end;
      simpl; try reflexivity; lia. }
  now rewrite Hn.
Qed.

Lemma same_letter_lower (a b : ascii) :
  same_letter a b = true -> lower_char a = lower_char b.
Proof.
  unfold same_letter. intros H.
  apply orb_true_iff in H as [H | H]; [apply orb_true_iff in H as [H | H]|].
  - apply Ascii.eqb_eq in H. now subst.
  - apply case_pair_lower in H as [-> ->]. reflexivity.
  - apply case_pair_lower in H as [-> ->]. reflexivity.
Qed.

Lemma eq_upto_case_lower (s1 s2 : string) :
  eq_upto_case s1 s2 = true -> lower s1 = lower s2.
Proof.
  revert s2; induction s1 as [|a s1 IH]; intros [|b s2] H;
    simpl in *; try discriminate; [reflexivity|].
  apply andb_true_iff in H as [Hab Hs].
  now rewrite (same_letter_lower _ _ Hab), (IH _ Hs).
Qed.

Lemma eq_upto_case_length (s1 s2 : string) :
  eq_upto_case s1 s2 = true -> String.length s1 = String.length s2.
Proof.
  revert s2; induction s1 as [|a s1 IH]; intros [|b s2] H;
    simpl in *; try discriminate; [reflexivity|].
  apply andb_true_iff in H as [_ Hs]. now rewrite (IH _ Hs).
Qed.

End CaseFacts.

Section DecodeFacts.

Lemma scan_string_escape_char (c : ascii) (r : string) :
  scan_string (escape_char c ++ r) = cons_char c (scan_string r).
Proof.
  destruct c as [[|] [|] [|] [|] [|] [|] [|] [|]]; reflexivity.
Qed.

Lemma scan_string_escape (s r : string) :
  scan_string (escape s ++ String dquote r) = Some (s, r).
Proof.
  induction s as [|c s IH].
  - reflexivity.
  - cbn [escape]. rewrite append_assoc, scan_string_escape_char, IH.
    reflexivity.
Qed.

Lemma scan_value_string (f : nat) (t b : string) :
  skip_ws t = String dquote b ->
  scan_value (S f) t =
  match scan_string b with
  | Some (body, rest) => Some (VStr body, rest)
  | None => None
  end.
Proof. intros H. cbn [scan_value]. rewrite H. reflexivity. Qed.

(** The last member of an object. *)
Lemma scan_members_last (scan : string -> option (value * string)) (n : nat)
      (acc : list (string * value)) (t t1 t2 t3 t4 rest k : string)
      (x : value) :
  skip_ws t = String dquote t1 ->
  scan_string t1 = Some (k, t2) ->
  skip_ws t2 = String ":" t3 ->
  scan t3 = Some (x, t4) ->
  skip_ws t4 = String "}" rest ->
  scan_members scan (S n) acc t = Some (VDict (dict_set acc k x), rest).
Proof.
  intros H1 H2 H3 H4 H5. cbn [scan_members].
  rewrite H1. change (Ascii.eqb dquote dquote) with true. cbv iota.
  rewrite H2, H3, H4, H5. reflexivity.
Qed.

Lemma scan_value_object (f : nat) (t r b : string) :
  skip_ws t = String "{" r ->
  skip_ws r = String dquote b ->
  scan_value (S f) t = scan_members (scan_value f) f [] r.
Proof.
  intros H1 H2. cbn [scan_value]. rewrite H1.
  change (Ascii.eqb "{" dquote) with false.
  change (Ascii.eqb "{" "n") with false.
  change (Ascii.eqb "{" "t") with false.
  change (Ascii.eqb "{" "f") with false.
  change (Ascii.eqb "{" "[") with false.
  change (Ascii.eqb "{" "{") with true.
  cbv iota. rewrite H2. reflexivity.
Qed.

(** The text of the one-member object the tool returns for an unknown
    name, and its decoding. *)
Lemma dumps_error_text (m : string) :
  dumps (VDict [("error", VStr m)]) 2 =
  "{" ++ nl ++ "  " ++ quoted "error" ++ ": "
      ++ String dquote (escape m ++ String dquote (String newline "}")).
Proof.
  unfold dumps. cbn [iterencode]. unfold encode_str at 2.
  let x := eval vm_compute in (newline_indent 2 1) in
    change (newline_indent 2 1) with x.
  let x := eval vm_compute in (newline_indent 2 0) in
    change (newline_indent 2 0) with x.
  let x := eval vm_compute in (encode_str "error") in
    change (encode_str "error") with x.
  unfold nl, quoted. cbn [append]. rewrite !append_assoc. reflexivity.
Qed.

Lemma loads_error_payload (m : string) :
  loads (dumps (VDict [("error", VStr m)]) 2)
  = Some (VDict [("error", VStr m)]).
Proof.
  rewrite dumps_error_text. unfold loads, nl, quoted.
  cbn [append String.length].
  set (tail := String dquote (String newline "}")).
  set (body := escape m ++ tail).
  erewrite scan_value_object; [|reflexivity|reflexivity].
  rewrite (scan_members_last _ _ _ _
             ("error" ++ String dquote (": " ++ String dquote body))
             (": " ++ String dquote body)
             (" " ++ String dquote body)
             (String newline "}") "" "error" (VStr m)); try reflexivity.
  erewrite scan_value_string by reflexivity.
  subst body tail. rewrite scan_string_escape. reflexivity.
Qed.

(** The two payloads of [get_stats] are different texts. *)
Lemma dumps_stats_not_error (n stats : value) (m : string) :
  dumps (VDict [("name", n); ("stats", stats)]) 2
  <> dumps (VDict [("error", VStr m)]) 2.
Proof.
  unfold dumps. cbn [iterencode].
  let x := eval vm_compute in (newline_indent 2 1) in
    change (newline_indent 2 1) with x.
  let x := eval vm_compute in (encode_str "error") in
    change (encode_str "error") with x.
  let x := eval vm_compute in (encode_str "name") in
    change (encode_str "name") with x.
  cbn [append]. intros H. congruence.
Qed.

End DecodeFacts.

(* ------------------------------------------------------------------ *)
(** * The handlers: what they compute on any store *)

Section HandlerFacts.

(** [read_resource] looks up the URI with every occurrence of the scheme
    prefix replaced by nothing. *)
Lemma read_resource_unfold (uri : string) (st : store) :
  read_resource uri st =
  (match dict_get st (replace "pokemon://" "" uri) with
   | Some record => Ok (dumps record 2)
   | None =>
       Raise (ValueError ("Unknown Pokemon: " ++ replace "pokemon://" "" uri))
   end, st).
Proof.
  unfold read_resource, bind, load_POKEMON_DATA, lift, ret, raise,
    getitem, dict_mem.
  destruct (dict_get st (replace "pokemon://" "" uri)) eqn:E;
    cbn [negb]; cbv beta; rewrite ?E; reflexivity.
Qed.

(** On any store, a key free of the scheme prefix is read back from the
    URI built from it. *)
Lemma read_resource_built_uri (k : string) (st : store) :
  contains "pokemon://" k = false ->
  read_resource ("pokemon://" ++ k) st =
  (match dict_get st k with
   | Some record => Ok (dumps record 2)
   | None => Raise (ValueError ("Unknown Pokemon: " ++ k))
   end, st).
Proof.
  intros H. rewrite read_resource_unfold, replace_match by discriminate.
  rewrite replace_absent by exact H. reflexivity.
Qed.

(** [call_tool("get_stats", arguments)] when [arguments["pokemon"]] is a
    string. *)
Lemma call_tool_get_stats (arguments : list (string * value)) (arg : string)
      (st : store) :
  dict_get arguments "pokemon" = Some (VStr arg) ->
  call_tool "get_stats" (VDict arguments) st =
  (match dict_get st (lower arg) with
   | None =>
       Ok [ {| type := "text";
               text := dumps (VDict [ ("error",
                         VStr ("Pokemon " ++ lower arg ++ " not found")) ]) 2 |} ]
   | Some record =>
       match getitem record "name" with
       | Raise e => Raise e
       | Ok n =>
           match getitem record "stats" with
           | Raise e => Raise e
           | Ok stats =>
               Ok [ {| type := "text";
                       text := dumps (VDict [ ("name", n); ("stats", stats) ]) 2 |} ]
           end
       end
   end, st).
Proof.
  intros Harg.
  unfold call_tool, bind, load_POKEMON_DATA, lift, ret, raise, dict_mem.
  cbn [String.eqb Ascii.eqb Bool.eqb].
  unfold getitem at 1. rewrite Harg. cbn [lower_method].
  destruct (dict_get st (lower arg)) as [record|] eqn:E; cbn [negb].
  - cbn [getitem]. rewrite E.
    destruct (getitem record "name"); [|reflexivity].
    destruct (getitem record "stats"); reflexivity.
  - reflexivity.
Qed.

Lemma read_resource_store (uri : string) (st : store) :
  snd (read_resource uri st) = st.
Proof. now rewrite read_resource_unfold. Qed.

Lemma call_tool_store (name : string) (arguments : value) (st : store) :
  snd (call_tool name arguments st) = st.
Proof.
  unfold call_tool, bind, load_POKEMON_DATA, lift, ret, raise.
  repeat match goal with
         | |- context [match ?x with _ => _ end] => destruct x
         | |- context [if ?x then _ else _] => destruct x
         end; reflexivity.
Qed.

(** No handler assigns to the global dictionary. *)
Lemma handle_store (r : request) (st : store) : snd (handle r st) = st.
Proof.
  destruct r as [|u| |n a]; unfold handle, bind.
  - unfold list_resources, bind, load_POKEMON_DATA, lift.
    destruct (resources_of st); reflexivity.
  - pose proof (read_resource_store u st) as H.
    destruct (read_resource u st) as [[b|e] st']; exact H.
  - reflexivity.
  - pose proof (call_tool_store n a st) as H.
    destruct (call_tool n a st) as [[l|e] st']; exact H.
Qed.

Lemma serve_store (rs : list request) (st : store) : serve rs st = st.
Proof.
  induction rs as [|r rs IH]; simpl; [reflexivity|].
  now rewrite handle_store.
Qed.

Lemma POKEMON_DATA_keys (k : string) (record : value) :
  dict_get POKEMON_DATA k = Some record ->
  k = "pikachu" /\ dict_get POKEMON_DATA "pikachu" = Some record.
Proof.
  unfold POKEMON_DATA. cbn [dict_get].
  destruct (String.eqb_spec k "pikachu") as [-> | _]; [|discriminate].
  intros H. split; [reflexivity | exact H].
Qed.

End HandlerFacts.

(* ------------------------------------------------------------------ *)
(** * The properties of the specification *)

(** C1 — asymmetric error semantics.  When [arguments["pokemon"]] is a
    string whose lower-cased form is not a key of the mapping,
    [call_tool("get_stats", arguments)] returns normally, with one text
    block whose JSON text decodes to [{"error": "Pokemon <name> not found"}]
    ([<name>] being the lower-cased argument); [read_resource] on a URI
    whose identifier (what the handler extracts from it) is not a key raises
    [ValueError] instead.  For the argument ["missingno"] the text is the
    three lines shown. *)
Theorem C1_soft_failure_vs_propagated_error
        (arguments : list (string * value)) (arg uri : string) :
  dict_get arguments "pokemon" = Some (VStr arg) ->
  dict_mem POKEMON_DATA (lower arg) = false ->
  dict_mem POKEMON_DATA (replace "pokemon://" "" uri) = false ->
  (exists body,
      run (call_tool "get_stats" (VDict arguments))
      = Ok [ {| type := "text"; text := body |} ]
      /\ body = dumps (VDict [("error",
                   VStr ("Pokemon " ++ lower arg ++ " not found"))]) 2
      /\ loads body
         = Some (VDict [("error",
                   VStr ("Pokemon " ++ lower arg ++ " not found"))]))
  /\ (exists msg, run (read_resource uri) = Raise (ValueError msg))
  /\ run (call_tool "get_stats" (VDict [("pokemon", VStr "missingno")]))
     = Ok [ {| type := "text";
               text := "{" ++ nl ++ "  " ++ quoted "error" ++ ": "
                           ++ quoted "Pokemon missingno not found"
                           ++ nl ++ "}" |} ]
  /\ loads ("{" ++ nl ++ "  " ++ quoted "error" ++ ": "
                ++ quoted "Pokemon missingno not found" ++ nl ++ "}")
     = Some (VDict [("error", VStr "Pokemon missingno not found")]).
Proof.
  intros Harg Htool Hres. split; [|split; [|split]].
  - eexists. split; [|split; [reflexivity|apply loads_error_payload]].
    unfold run. rewrite (call_tool_get_stats _ _ _ Harg).
    unfold dict_mem in Htool.
    destruct (dict_get POKEMON_DATA (lower arg)); [discriminate|reflexivity].
  - eexists. unfold run. rewrite read_resource_unfold.
    unfold dict_mem in Hres.
    destruct (dict_get POKEMON_DATA (replace "pokemon://" "" uri));
      [discriminate|reflexivity].
  - vm_compute. reflexivity.
  - vm_compute. reflexivity.
Qed.

Lemma C1_witness :
  dict_get [("pokemon", VStr "MissingNo")] "pokemon" = Some (VStr "MissingNo")
  /\ dict_mem POKEMON_DATA (lower "MissingNo") = false
  /\ dict_mem POKEMON_DATA (replace "pokemon://" "" "pokemon://missingno") = false
  /\ (exists body,
        run (call_tool "get_stats" (VDict [("pokemon", VStr "MissingNo")]))
        = Ok [ {| type := "text"; text := body |} ]
        /\ body = dumps (VDict [("error",
                     VStr ("Pokemon " ++ lower "MissingNo" ++ " not found"))]) 2
        /\ loads body
           = Some (VDict [("error",
                     VStr ("Pokemon " ++ lower "MissingNo" ++ " not found"))]))
  /\ (exists msg,
        run (read_resource "pokemon://missingno") = Raise (ValueError msg)).
Proof.
  split; [reflexivity|]. split; [reflexivity|]. split; [reflexivity|].
  destruct (C1_soft_failure_vs_propagated_error
              [("pokemon", VStr "MissingNo")] "MissingNo" "pokemon://missingno"
              eq_refl eq_refl eq_refl) as (H1 & H2 & _).
  split; [exact H1 | exact H2].
Defined.

(** C5 — for every operation name other than ["get_stats"] and every
    argument value, [call_tool] raises [ValueError("Unknown tool: <name>")];
    so does [call_tool("bogus_tool", {})]. *)
Theorem C5_unknown_tool (name : string) (arguments : value) :
  name <> "get_stats" ->
  run (call_tool name arguments) = Raise (ValueError ("Unknown tool: " ++ name))
  /\ run (call_tool "bogus_tool" (VDict []))
     = Raise (ValueError "Unknown tool: bogus_tool").
Proof.
  intros Hname. split; [|reflexivity].
  unfold run, call_tool.
  destruct (String.eqb_spec name "get_stats") as [E | _]; [contradiction|].
  reflexivity.
Qed.

Lemma C5_witness :
  "bogus_tool" <> "get_stats"
  /\ run (call_tool "bogus_tool" (VDict [("pokemon", VStr "pikachu")]))
     = Raise (ValueError ("Unknown tool: " ++ "bogus_tool")).
Proof.
  split; [discriminate|].
  apply (C5_unknown_tool "bogus_tool" (VDict [("pokemon", VStr "pikachu")])).
  discriminate.
Defined.

(** C10 — when the argument dictionary has no key ["pokemon"],
    [call_tool("get_stats", arguments)] raises [KeyError("pokemon")]
    whatever the store holds (the subscription comes before any lookup in
    the mapping), and leaves the store as it was. *)
Theorem C10_missing_argument_key (arguments : list (string * value)) (st : store) :
  dict_get arguments "pokemon" = None ->
  call_tool "get_stats" (VDict arguments) st = (Raise (KeyError "pokemon"), st).
Proof.
  intros H. unfold call_tool, bind, lift.
  cbn [String.eqb Ascii.eqb Bool.eqb]. unfold getitem. rewrite H. reflexivity.
Qed.

Lemma C10_witness :
  dict_get [("name", VStr "pikachu")] "pokemon" = None
  /\ call_tool "get_stats" (VDict [("name", VStr "pikachu")]) POKEMON_DATA
     = (Raise (KeyError "pokemon"), POKEMON_DATA).
Proof.
  split; [reflexivity|].
  apply (C10_missing_argument_key [("name", VStr "pikachu")] POKEMON_DATA).
  reflexivity.
Defined.

(** C7 — for every key of the mapping, [read_resource] on ["pokemon://"]
    followed by the key returns the record of that key as [json.dumps]
    prints it with [indent=2]: the eleven lines shown, the members of the
    record indented by two spaces and those of its ["stats"] by four; the
    text decodes to the record, and the ["name"] of the decoded value is the
    display name stored in the record. *)
Theorem C7_read_resource_found (k : string) (record : value) :
  dict_get POKEMON_DATA k = Some record ->
  run (read_resource ("pokemon://" ++ k)) = Ok (dumps record 2)
  /\ dumps record 2
     = ("{" ++ nl
     ++ "  " ++ quoted "name" ++ ": " ++ quoted "Pikachu" ++ "," ++ nl
     ++ "  " ++ quoted "type" ++ ": " ++ quoted "Electric" ++ "," ++ nl
     ++ "  " ++ quoted "description" ++ ": "
     ++ quoted "A Mouse Pok\u00e9mon. It can generate electric attacks from the electric pouches located in both of its cheeks."
     ++ "," ++ nl
     ++ "  " ++ quoted "stats" ++ ": {" ++ nl
     ++ "    " ++ quoted "hp" ++ ": 35," ++ nl
     ++ "    " ++ quoted "attack" ++ ": 55," ++ nl
     ++ "    " ++ quoted "defense" ++ ": 40," ++ nl
     ++ "    " ++ quoted "speed" ++ ": 90" ++ nl
     ++ "  }" ++ nl
     ++ "}")
  /\ exists decoded n,
       loads (dumps record 2) = Some decoded
       /\ decoded = record
       /\ getitem decoded "name" = Ok (VStr n)
       /\ getitem record "name" = Ok (VStr n).
Proof.
  intros H. pose proof H as Hk. apply POKEMON_DATA_keys in H as [-> H].
  injection H as <-. split; [|split].
  - unfold run. rewrite read_resource_built_uri by reflexivity.
    now rewrite Hk.
  - vm_compute. reflexivity.
  - exists pikachu_record, "Pikachu".
    split; [vm_compute; reflexivity|]. repeat split.
Qed.

Lemma C7_witness :
  dict_get POKEMON_DATA "pikachu" = Some pikachu_record
  /\ run (read_resource ("pokemon://" ++ "pikachu")) = Ok (dumps pikachu_record 2)
  /\ dumps pikachu_record 2
     = ("{" ++ nl
     ++ "  " ++ quoted "name" ++ ": " ++ quoted "Pikachu" ++ "," ++ nl
     ++ "  " ++ quoted "type" ++ ": " ++ quoted "Electric" ++ "," ++ nl
     ++ "  " ++ quoted "description" ++ ": "
     ++ quoted "A Mouse Pok\u00e9mon. It can generate electric attacks from the electric pouches located in both of its cheeks."
     ++ "," ++ nl
     ++ "  " ++ quoted "stats" ++ ": {" ++ nl
     ++ "    " ++ quoted "hp" ++ ": 35," ++ nl
     ++ "    " ++ quoted "attack" ++ ": 55," ++ nl
     ++ "    " ++ quoted "defense" ++ ": 40," ++ nl
     ++ "    " ++ quoted "speed" ++ ": 90" ++ nl
     ++ "  }" ++ nl
     ++ "}").
Proof.
  split; [reflexivity|].
  destruct (C7_read_resource_found "pikachu" pikachu_record eq_refl)
    as (H1 & H2 & _).
  split; [exact H1 | exact H2].
Defined.

(** C2, as the specification states it, fails: ["Pikachu"] equals the key
    ["pikachu"] up to letter case, yet [read_resource("pokemon://Pikachu")]
    raises while [read_resource("pokemon://pikachu")] returns the record. *)
Lemma C2_counterexample :
  dict_get POKEMON_DATA "pikachu" = Some pikachu_record
  /\ eq_upto_case "Pikachu" "pikachu" = true
  /\ run (read_resource ("pokemon://" ++ "pikachu")) = Ok (dumps pikachu_record 2)
  /\ run (read_resource ("pokemon://" ++ "Pikachu"))
     = Raise (ValueError "Unknown Pokemon: Pikachu")
  /\ ~ (forall k s record,
          dict_get POKEMON_DATA k = Some record ->
          eq_upto_case s k = true ->
          run (read_resource ("pokemon://" ++ s))
          = run (read_resource ("pokemon://" ++ k))).
Proof.
  split; [reflexivity|]. split; [reflexivity|].
  split; [vm_compute; reflexivity|]. split; [vm_compute; reflexivity|].
  intros H.
  specialize (H "pikachu" "Pikachu" pikachu_record eq_refl eq_refl).
  vm_compute in H. discriminate H.
Qed.

(** C2, amended — the lookup of [read_resource] is exact: for a key [k] of
    the mapping and a string [s] equal to [k] up to letter case,
    [read_resource("pokemon://" + s)] returns the record of [k] when [s] is
    [k] itself, and raises [ValueError("Unknown Pokemon: <s>")] when it is
    not. *)
Theorem C2_read_resource_exact_match (k s : string) (record : value) :
  dict_get POKEMON_DATA k = Some record ->
  eq_upto_case s k = true ->
  (s = k -> run (read_resource ("pokemon://" ++ s)) = Ok (dumps record 2))
  /\ (s <> k ->
      run (read_resource ("pokemon://" ++ s))
      = Raise (ValueError ("Unknown Pokemon: " ++ s))).
Proof.
  intros Hk Hs.
  assert (Hid : replace "pokemon://" "" ("pokemon://" ++ s) = s).
  { rewrite replace_match by discriminate.
    rewrite replace_absent; [reflexivity|].
    apply contains_short. apply eq_upto_case_length in Hs. rewrite Hs.
    apply POKEMON_DATA_keys in Hk as [-> _]. simpl. lia. }
  unfold run. rewrite read_resource_unfold, Hid. cbn [fst].
  pose proof Hk as Hk'. apply POKEMON_DATA_keys in Hk' as [-> _].
  split.
  - intros ->. now rewrite Hk.
  - intros Hne. unfold POKEMON_DATA. cbn [dict_get].
    destruct (String.eqb_spec s "pikachu") as [E | _]; [contradiction|].
    reflexivity.
Qed.

Lemma C2_witness :
  dict_get POKEMON_DATA "pikachu" = Some pikachu_record
  /\ eq_upto_case "PikaChu" "pikachu" = true
  /\ run (read_resource ("pokemon://" ++ "PikaChu"))
     = Raise (ValueError ("Unknown Pokemon: " ++ "PikaChu")).
Proof.
  split; [reflexivity|]. split; [reflexivity|].
  apply (C2_read_resource_exact_match "pikachu" "PikaChu" pikachu_record
           eq_refl eq_refl).
  discriminate.
Defined.

(** C3, as the specification states it, fails: ["pokemon://pikachu"] is not
    a key of the mapping, yet [read_resource] on the URI built from it
    returns the record of ["pikachu"]; and for the absent identifier
    ["mew/pokemon://two"] the error names ["mew/two"], not the identifier. *)
Lemma C3_counterexample :
  dict_mem POKEMON_DATA "pokemon://pikachu" = false
  /\ run (read_resource ("pokemon://" ++ "pokemon://pikachu"))
     = Ok (dumps pikachu_record 2)
  /\ dict_mem POKEMON_DATA "mew/pokemon://two" = false
  /\ run (read_resource ("pokemon://" ++ "mew/pokemon://two"))
     = Raise (ValueError "Unknown Pokemon: mew/two").
Proof.
  split; [reflexivity|]. split; [vm_compute; reflexivity|].
  split; [reflexivity|]. vm_compute; reflexivity.
Qed.

(** C3, amended — for every identifier that is not a key of the mapping
    and in which ["pokemon://"] does not occur, [read_resource] on the URI
    built from it raises [ValueError("Unknown Pokemon: <identifier>")]. *)
Theorem C3_read_resource_not_found (pokemon_id : string) :
  dict_mem POKEMON_DATA pokemon_id = false ->
  contains "pokemon://" pokemon_id = false ->
  run (read_resource ("pokemon://" ++ pokemon_id))
  = Raise (ValueError ("Unknown Pokemon: " ++ pokemon_id)).
Proof.
  intros Hmem Hfree. unfold run.
  rewrite read_resource_built_uri by exact Hfree. cbn [fst].
  unfold dict_mem in Hmem.
  destruct (dict_get POKEMON_DATA pokemon_id); [discriminate|reflexivity].
Qed.

Lemma C3_witness :
  dict_mem POKEMON_DATA "missingno" = false
  /\ contains "pokemon://" "missingno" = false
  /\ run (read_resource ("pokemon://" ++ "missingno"))
     = Raise (ValueError ("Unknown Pokemon: " ++ "missingno")).
Proof.
  split; [reflexivity|]. split; [reflexivity|].
  apply (C3_read_resource_not_found "missingno"); reflexivity.
Defined.

(** C9 — on every store, the key [read_resource] looks up is the URI with
    every occurrence of ["pokemon://"] taken out, not only a leading one: the
    occurrences are found from left to right, one behind a part [a] free of
    them is deleted wherever it stands and the rest is treated in the same
    way, so that a URI made of pieces free of occurrences with
    ["pokemon://"] between them is looked up as the pieces put together.
    ["pokemon://pokemon://pikachu"] is looked up as ["pikachu"]. *)
Theorem C9_every_occurrence_removed
        (uri a b : string) (pieces : list string) (st : store) :
  contains "pokemon://" a = false ->
  forallb (fun p => negb (contains "pokemon://" p)) pieces = true ->
  read_resource uri st
  = (match dict_get st (replace "pokemon://" "" uri) with
     | Some record => Ok (dumps record 2)
     | None =>
         Raise (ValueError ("Unknown Pokemon: " ++ replace "pokemon://" "" uri))
     end, st)
  /\ replace "pokemon://" "" (a ++ "pokemon://" ++ b)
     = a ++ replace "pokemon://" "" b
  /\ replace "pokemon://" "" (String.concat "pokemon://" pieces)
     = String.concat "" pieces
  /\ replace "pokemon://" "" "pokemon://pokemon://pikachu" = "pikachu"
  /\ run (read_resource "pokemon://pokemon://pikachu")
     = Ok (dumps pikachu_record 2).
Proof.
  intros Ha Hp. split; [apply read_resource_unfold|].
  split; [apply replace_scheme_app; exact Ha|].
  split; [apply replace_scheme_concat; exact Hp|].
  split; [reflexivity | vm_compute; reflexivity].
Qed.

Lemma C9_witness :
  contains "pokemon://" "pika" = false
  /\ forallb (fun p => negb (contains "pokemon://" p)) [""; "pika"; "chu"] = true
  /\ replace "pokemon://" "" ("pika" ++ "pokemon://" ++ "chu")
     = "pika" ++ replace "pokemon://" "" "chu"
  /\ replace "pokemon://" "" (String.concat "pokemon://" [""; "pika"; "chu"])
     = String.concat "" [""; "pika"; "chu"]
  /\ run (read_resource "pokemon://pokemon://pikachu")
     = Ok (dumps pikachu_record 2).
Proof.
  split; [reflexivity|]. split; [reflexivity|].
  destruct (C9_every_occurrence_removed "pokemon://pikapokemon://chu"
              "pika" "chu" [""; "pika"; "chu"] POKEMON_DATA eq_refl eq_refl)
    as (_ & H2 & H3 & _ & H5).
  split; [exact H2|]. split; [exact H3 | exact H5].
Defined.

(** C4 — [call_tool("get_stats", {"pokemon": "Pikachu"})] returns one text
    block whose text is the seven lines shown, which decode to
    [{"name": "Pikachu", "stats": {"hp": 35, "attack": 55, "defense": 40,
    "speed": 90}}]; and whenever the lower-cased argument is a key of the
    mapping, the text is [json.dumps] of [{"name": record["name"], "stats":
    record["stats"]}] for the record of that key, and decodes to it. *)
Theorem C4_get_stats_found
        (arguments : list (string * value)) (arg k : string) (record : value) :
  dict_get POKEMON_DATA k = Some record ->
  dict_get arguments "pokemon" = Some (VStr arg) ->
  lower arg = k ->
  (exists n stats,
      getitem record "name" = Ok n
      /\ getitem record "stats" = Ok stats
      /\ run (call_tool "get_stats" (VDict arguments))
         = Ok [ {| type := "text";
                   text := dumps (VDict [("name", n); ("stats", stats)]) 2 |} ]
      /\ loads (dumps (VDict [("name", n); ("stats", stats)]) 2)
         = Some (VDict [("name", n); ("stats", stats)]))
  /\ run (call_tool "get_stats" (VDict [("pokemon", VStr "Pikachu")]))
     = Ok [ {| type := "text";
               text := "{" ++ nl
                 ++ "  " ++ quoted "name" ++ ": " ++ quoted "Pikachu" ++ "," ++ nl
                 ++ "  " ++ quoted "stats" ++ ": {" ++ nl
                 ++ "    " ++ quoted "hp" ++ ": 35," ++ nl
                 ++ "    " ++ quoted "attack" ++ ": 55," ++ nl
                 ++ "    " ++ quoted "defense" ++ ": 40," ++ nl
                 ++ "    " ++ quoted "speed" ++ ": 90" ++ nl
                 ++ "  }" ++ nl
                 ++ "}" |} ]
  /\ loads ("{" ++ nl
              ++ "  " ++ quoted "name" ++ ": " ++ quoted "Pikachu" ++ "," ++ nl
              ++ "  " ++ quoted "stats" ++ ": {" ++ nl
              ++ "    " ++ quoted "hp" ++ ": 35," ++ nl
              ++ "    " ++ quoted "attack" ++ ": 55," ++ nl
              ++ "    " ++ quoted "defense" ++ ": 40," ++ nl
              ++ "    " ++ quoted "speed" ++ ": 90" ++ nl
              ++ "  }" ++ nl
              ++ "}")
     = Some (VDict [ ("name", VStr "Pikachu");
                     ("stats", VDict [ ("hp", VInt 35); ("attack", VInt 55);
                                       ("defense", VInt 40); ("speed", VInt 90) ]) ]).
Proof.
  intros Hk Harg Hlow. split; [|split; vm_compute; reflexivity].
  unfold run. rewrite (call_tool_get_stats _ _ _ Harg), Hlow, Hk.
  apply POKEMON_DATA_keys in Hk as [_ Hk]. injection Hk as <-.
  exists (VStr "Pikachu"),
    (VDict [ ("hp", VInt 35); ("attack", VInt 55);
             ("defense", VInt 40); ("speed", VInt 90) ]).
  split; [reflexivity|]. split; [reflexivity|].
  split; [reflexivity | vm_compute; reflexivity].
Qed.

Lemma C4_witness :
  dict_get POKEMON_DATA "pikachu" = Some pikachu_record
  /\ dict_get [("pokemon", VStr "PikaCHU")] "pokemon" = Some (VStr "PikaCHU")
  /\ lower "PikaCHU" = "pikachu"
  /\ exists n stats,
       getitem pikachu_record "name" = Ok n
       /\ getitem pikachu_record "stats" = Ok stats
       /\ run (call_tool "get_stats" (VDict [("pokemon", VStr "PikaCHU")]))
          = Ok [ {| type := "text";
                    text := dumps (VDict [("name", n); ("stats", stats)]) 2 |} ]
       /\ loads (dumps (VDict [("name", n); ("stats", stats)]) 2)
          = Some (VDict [("name", n); ("stats", stats)]).
Proof.
  split; [reflexivity|]. split; [reflexivity|]. split; [reflexivity|].
  exact (proj1 (C4_get_stats_found [("pokemon", VStr "PikaCHU")] "PikaCHU"
                  "pikachu" pikachu_record eq_refl eq_refl eq_refl)).
Defined.

(** C6 — [call_tool("get_stats", ...)] on two arguments that are equal up to
    letter case gives the same result, on every store; the lower-cased
    argument is then compared with the stored keys as they are: the
    not-found text comes back exactly when the lower-cased argument is not
    literally a key, so a record stored under ["Pikachu"] is found by no
    spelling of the name. *)
Theorem C6_call_tool_case_insensitive
        (a1 a2 : list (string * value)) (s1 s2 : string) (st : store) :
  dict_get a1 "pokemon" = Some (VStr s1) ->
  dict_get a2 "pokemon" = Some (VStr s2) ->
  eq_upto_case s1 s2 = true ->
  call_tool "get_stats" (VDict a1) st = call_tool "get_stats" (VDict a2) st
  /\ (dict_mem st (lower s1) = false <->
      fst (call_tool "get_stats" (VDict a1) st)
      = Ok [ {| type := "text";
                text := dumps (VDict [("error",
                          VStr ("Pokemon " ++ lower s1 ++ " not found"))]) 2 |} ])
  /\ run (call_tool "get_stats" (VDict [("pokemon", VStr "PIKACHU")]))
     = run (call_tool "get_stats" (VDict [("pokemon", VStr "pikachu")]))
  /\ fst (call_tool "get_stats" (VDict [("pokemon", VStr "Pikachu")])
            [("Pikachu", pikachu_record)])
     = Ok [ {| type := "text";
               text := dumps (VDict [("error",
                         VStr "Pokemon pikachu not found")]) 2 |} ].
Proof.
  intros H1 H2 Hcase.
  split; [|split; [|split; vm_compute; reflexivity]].
  - rewrite (call_tool_get_stats _ _ _ H1), (call_tool_get_stats _ _ _ H2).
    now rewrite (eq_upto_case_lower _ _ Hcase).
  - rewrite (call_tool_get_stats _ _ _ H1). cbn [fst]. unfold dict_mem.
    destruct (dict_get st (lower s1)) as [record|].
    + split; [discriminate|].
      destruct (getitem record "name") as [n|e]; [|discriminate].
      destruct (getitem record "stats") as [stats|e]; [|discriminate].
      intros H. exfalso.
      apply (dumps_stats_not_error n stats
               ("Pokemon " ++ lower s1 ++ " not found")).
      congruence.
    + split; reflexivity.
Qed.

Lemma C6_witness :
  dict_get [("pokemon", VStr "PIKACHU")] "pokemon" = Some (VStr "PIKACHU")
  /\ dict_get [("pokemon", VStr "pikachu")] "pokemon" = Some (VStr "pikachu")
  /\ eq_upto_case "PIKACHU" "pikachu" = true
  /\ call_tool "get_stats" (VDict [("pokemon", VStr "PIKACHU")]) POKEMON_DATA
     = call_tool "get_stats" (VDict [("pokemon", VStr "pikachu")]) POKEMON_DATA.
Proof.
  split; [reflexivity|]. split; [reflexivity|]. split; [reflexivity|].
  exact (proj1 (C6_call_tool_case_insensitive
                  [("pokemon", VStr "PIKACHU")] [("pokemon", VStr "pikachu")]
                  "PIKACHU" "pikachu" POKEMON_DATA eq_refl eq_refl eq_refl)).
Defined.

(** C8 — [list_resources] takes no argument and, after any sequence of
    requests, returns normally and leaves the store as it found it; the list
    has one descriptor per entry of the mapping, in order, with the URI
    ["pokemon://"] followed by the key, the record's display name, the MIME
    type ["application/json"] and the description ["Information about
    <name>"]; every call returns this same list. *)
Theorem C8_list_resources (rs : list request) :
  exists ds,
    list_resources (serve rs POKEMON_DATA) = (Ok ds, serve rs POKEMON_DATA)
    /\ serve rs POKEMON_DATA = POKEMON_DATA
    /\ ds = [ {| uri := "pokemon://pikachu";
                 name := "Pikachu";
                 mimeType := "application/json";
                 description := "Information about Pikachu" |} ]
    /\ List.length ds = List.length POKEMON_DATA
    /\ map uri ds = map (fun entry => "pokemon://" ++ fst entry) POKEMON_DATA
    /\ Forall2 (fun entry d =>
                  getitem (snd entry) "name" = Ok (VStr (name d))
                  /\ mimeType d = "application/json"
                  /\ description d = "Information about " ++ name d)
               POKEMON_DATA ds
    /\ run list_resources = Ok ds.
Proof.
  rewrite serve_store.
  eexists. split; [reflexivity|]. split; [reflexivity|].
  split; [reflexivity|]. split; [reflexivity|]. split; [reflexivity|].
  split; [|reflexivity].
  repeat constructor.
Qed.

(* ------------------------------------------------------------------ *)
(** * Decoding what [json.dumps] writes *)

Section NumberFacts.

Lemma digits_value_uint (u : Decimal.uint) (acc : Z) :
  digits_value acc (NilEmpty.string_of_uint u) = uint_value acc u.
Proof.
  revert acc; induction u; intros acc; cbn [NilEmpty.string_of_uint digits_value uint_value];
    try reflexivity; rewrite <- IHu; reflexivity.
Qed.

Lemma uint_value_acc (u : Decimal.uint) (acc : positive) :
  uint_value (Zpos acc) u = Zpos (Pos.of_uint_acc u acc).
Proof.
  revert acc; induction u; intros acc; cbn [uint_value Pos.of_uint_acc];
    try reflexivity; rewrite <- IHu; f_equal; lia.
Qed.

Lemma uint_value_of_uint (u : Decimal.uint) :
  uint_value 0 u = Z.of_N (Pos.of_uint u).
Proof.
  induction u; cbn [uint_value Pos.of_uint]; try reflexivity;
    try exact IHu;
    match goal with
    | |- uint_value ?a _ = _ =>
        change a with (Zpos (Z.to_pos a)); rewrite uint_value_acc; reflexivity
    end.
Qed.

Lemma span_digits_uint (u : Decimal.uint) (r : string) :
  ends_number r = true ->
  span_digits (NilEmpty.string_of_uint u ++ r) = (NilEmpty.string_of_uint u, r).
Proof.
  intros Hr. induction u; cbn [NilEmpty.string_of_uint append span_digits];
    try (change (is_digit _) with true; cbv iota; rewrite IHu; reflexivity).
  destruct r as [|c r]; [reflexivity|].
  cbn [span_digits]. cbn [ends_number] in Hr.
  destruct (is_digit c); [discriminate | reflexivity].
Qed.

Lemma to_uint_head (p : positive) :
  exists c t, NilEmpty.string_of_uint (Pos.to_uint p) = String c t
              /\ is_digit c = true /\ Ascii.eqb c "0" = false.
Proof.
  assert (Hn : Pos.to_uint p = Decimal.nzhead (Pos.to_uint p)).
  { pose proof (Unsigned.to_of (Pos.to_uint p)) as H.
    rewrite Unsigned.of_to in H. cbn [N.to_uint] in H.
    destruct (Decimal.nzhead (Pos.to_uint p)) eqn:E.
    1: { exfalso. apply (Unsigned.to_uint_nonzero p).
         rewrite H. apply unorm_0. exact E. }
    all: rewrite H at 1; rewrite unorm_nzhead by (rewrite E; discriminate);
      exact E. }
  pose proof (Unsigned.to_uint_nonnil p) as Hnil.
  pose proof (nzhead_nonzero (Pos.to_uint p)) as Hnz. rewrite <- Hn in Hnz.
  destruct (Pos.to_uint p); try congruence;
    eexists _, _; (split; [reflexivity | split; reflexivity]).
Qed.

Lemma not_minus_of_digit (c : ascii) :
  is_digit c = true -> Ascii.eqb c "-" = false.
Proof.
  destruct c as [[|] [|] [|] [|] [|] [|] [|] [|]];
    try reflexivity; intros H; discriminate H.
Qed.

Lemma scan_int_digits (neg : bool) (c : ascii) (t r : string) :
  is_digit c = true ->
  span_digits (String c t ++ r) = (String c t, r) ->
  (Ascii.eqb c "0" && negb (String.eqb t EmptyString))%bool = false ->
  ends_number r = true ->
  scan_int ((if neg then "-" else "") ++ String c t ++ r)
  = Some (if neg then Z.opp (digits_value 0 (String c t))
          else digits_value 0 (String c t), r).
Proof.
  intros Hd Hspan Hzero Hr.
  assert (Hfrac : match r with
                  | String c _ => Ascii.eqb c "." || Ascii.eqb c "e" || Ascii.eqb c "E"
                  | EmptyString => false
                  end = false).
  { destruct r as [|x r]; [reflexivity|]. cbn [ends_number] in Hr.
    apply negb_true_iff in Hr. rewrite !orb_false_iff in Hr.
    destruct Hr as [[[_ H1] H2] H3]. now rewrite H1, H2, H3. }
  unfold scan_int. destruct neg; cbn [append].
  - change (Ascii.eqb "-" "-") with true. cbv iota.
    change (String c (t ++ r)) with (String c t ++ r).
    rewrite Hspan, Hfrac, Hzero. reflexivity.
  - rewrite (not_minus_of_digit _ Hd).
    change (String c (t ++ r)) with (String c t ++ r).
    rewrite Hspan, Hfrac, Hzero. reflexivity.
Qed.

Lemma string_of_uint_nonnil (u : Decimal.uint) :
  u <> Decimal.Nil -> NilZero.string_of_uint u = NilEmpty.string_of_uint u.
Proof. destruct u; intros H; [congruence | reflexivity ..]. Qed.

Lemma scan_int_encode (z : Z) (r : string) :
  ends_number r = true ->
  scan_int (encode_int z ++ r) = Some (z, r).
Proof.
  intros Hr. unfold encode_int.
  assert (Hpos : forall (neg : bool) p,
             scan_int ((if neg then "-" else "")
                         ++ NilEmpty.string_of_uint (Pos.to_uint p) ++ r)
             = Some (if neg then Zneg p else Zpos p, r)).
  { intros neg p. destruct (to_uint_head p) as (c & t & E & Hd & H0).
    pose proof (span_digits_uint (Pos.to_uint p) r Hr) as Hspan.
    pose proof (digits_value_uint (Pos.to_uint p) 0) as Hv.
    rewrite uint_value_of_uint, Unsigned.of_to in Hv.
    rewrite E in *.
    rewrite scan_int_digits; try assumption.
    - rewrite Hv. destruct neg; reflexivity.
    - now rewrite H0. }
  destruct z as [|p|p]; cbn [Z.to_int NilZero.string_of_int].
  - change (NilZero.string_of_uint Decimal.zero) with (String "0" EmptyString).
    apply (scan_int_digits false "0" EmptyString r); try reflexivity; try assumption.
    change (String "0" EmptyString) with (NilEmpty.string_of_uint (Decimal.D0 Decimal.Nil)).
    now apply span_digits_uint.
  - rewrite string_of_uint_nonnil by apply Unsigned.to_uint_nonnil.
    exact (Hpos false p).
  - rewrite string_of_uint_nonnil by apply Unsigned.to_uint_nonnil.
    exact (Hpos true p).
Qed.


End NumberFacts.

Section ScanFacts.

Lemma skip_ws_idem (s : string) : skip_ws (skip_ws s) = skip_ws s.
Proof.
  induction s as [|c s IH]; [reflexivity|].
  cbn [skip_ws]. destruct (is_ws c) eqn:E; [exact IH|].
  cbn [skip_ws]. now rewrite E.
Qed.

Lemma scan_value_skip_ws (f : nat) (s : string) :
  scan_value f (skip_ws s) = scan_value f s.
Proof. destruct f; [reflexivity|]. cbn [scan_value]. now rewrite skip_ws_idem. Qed.

Lemma skip_ws_spaces (n : nat) (s : string) :
  skip_ws (spaces n ++ s) = skip_ws s.
Proof. induction n as [|n IH]; [reflexivity | exact IH]. Qed.

Lemma skip_ws_newline_indent (indent level : nat) (s : string) :
  skip_ws (newline_indent indent level ++ s) = skip_ws s.
Proof.
  unfold newline_indent. cbn [append skip_ws].
  change (is_ws newline) with true. cbv iota. apply skip_ws_spaces.
Qed.

Lemma substring_all (r : string) (n : nat) :
  String.length r <= n -> substring 0 n r = r.
Proof.
  revert n; induction r as [|c r IH]; intros n H.
  - destruct n; reflexivity.
  - destruct n as [|n]; [simpl in H; lia|].
    cbn [substring]. rewrite IH by (simpl in H; lia). reflexivity.
Qed.

Lemma substring_skip (p r : string) (n : nat) :
  String.length r <= n -> substring (String.length p) n (p ++ r) = r.
Proof.
  intros H. induction p as [|c p IH]; cbn [String.length append substring].
  - now apply substring_all.
  - exact IH.
Qed.

Lemma expect_literal (lit : string) (v : value) (r : string) :
  expect lit v (lit ++ r) = Some (v, r).
Proof.
  unfold expect. rewrite startswith_app.
  rewrite substring_skip; [reflexivity|]. rewrite length_append. lia.
Qed.

(** Which branch of [scan_value] a first character selects. *)
Lemma scan_value_number (f : nat) (c : ascii) (t : string) :
  (is_digit c || Ascii.eqb c "-")%bool = true ->
  scan_value (S f) (String c t) =
  match scan_int (String c t) with
  | Some (z, rest) => Some (VInt z, rest)
  | None => None
  end.
Proof.
  destruct c as [[|] [|] [|] [|] [|] [|] [|] [|]];
    intros H; try discriminate H; reflexivity.
Qed.

Lemma scan_value_array (f : nat) (t r b : string) (c : ascii) :
  skip_ws t = String "[" r ->
  skip_ws r = String c b ->
  Ascii.eqb c "]" = false ->
  scan_value (S f) t = scan_elements (scan_value f) f [] r.
Proof.
  intros H1 H2 Hc. cbn [scan_value]. rewrite H1.
  change (Ascii.eqb "[" dquote) with false.
  change (Ascii.eqb "[" "n") with false.
  change (Ascii.eqb "[" "t") with false.
  change (Ascii.eqb "[" "f") with false.
  change (Ascii.eqb "[" "[") with true.
  cbv iota. rewrite H2.
  destruct c as [[|] [|] [|] [|] [|] [|] [|] [|]];
    try reflexivity; discriminate Hc.
Qed.

Lemma scan_elements_more (scan : string -> option (value * string)) (n : nat)
      (acc : list value) (t t' t'' : string) (x : value) :
  scan t = Some (x, t') ->
  skip_ws t' = String "," t'' ->
  scan_elements scan (S n) acc t = scan_elements scan n (acc ++ [x])%list t''.
Proof. intros H1 H2. cbn [scan_elements]. rewrite H1, H2. reflexivity. Qed.

Lemma scan_elements_last (scan : string -> option (value * string)) (n : nat)
      (acc : list value) (t t' rest : string) (x : value) :
  scan t = Some (x, t') ->
  skip_ws t' = String "]" rest ->
  scan_elements scan (S n) acc t = Some (VList (acc ++ [x])%list, rest).
Proof. intros H1 H2. cbn [scan_elements]. rewrite H1, H2. reflexivity. Qed.

Lemma scan_members_more (scan : string -> option (value * string)) (n : nat)
      (acc : list (string * value)) (t t1 t2 t3 t4 t5 k : string) (x : value) :
  skip_ws t = String dquote t1 ->
  scan_string t1 = Some (k, t2) ->
  skip_ws t2 = String ":" t3 ->
  scan t3 = Some (x, t4) ->
  skip_ws t4 = String "," t5 ->
  scan_members scan (S n) acc t = scan_members scan n (dict_set acc k x) t5.
Proof.
  intros H1 H2 H3 H4 H5. cbn [scan_members].
  rewrite H1. change (Ascii.eqb dquote dquote) with true. cbv iota.
  rewrite H2, H3, H4, H5. reflexivity.
Qed.

End ScanFacts.

Section EncodeFacts.

Lemma iterencode_list (indent level : nat) (x : value) (xs : list value) :
  iterencode indent level (VList (x :: xs))
  = "[" ++ newline_indent indent (S level)
        ++ iterencode indent (S level) x
        ++ list_rest indent level xs
        ++ newline_indent indent level ++ "]".
Proof.
  cbn [iterencode]. do 3 f_equal.
  match goal with
  | |- ?a ++ _ = ?b ++ _ => assert (E : a = b); [|now rewrite E]
  end.
  induction xs as [|y l IH]; [reflexivity|].
  cbn [list_rest]. rewrite <- IH. reflexivity.
Qed.

Lemma iterencode_dict (indent level : nat) (k : string) (x : value)
      (xs : list (string * value)) :
  iterencode indent level (VDict ((k, x) :: xs))
  = "{" ++ newline_indent indent (S level)
        ++ encode_str k ++ ": "
        ++ iterencode indent (S level) x
        ++ dict_rest indent level xs
        ++ newline_indent indent level ++ "}".
Proof.
  cbn [iterencode]. do 5 f_equal.
  match goal with
  | |- ?a ++ _ = ?b ++ _ => assert (E : a = b); [|now rewrite E]
  end.
  induction xs as [|[k' y] l IH]; [reflexivity|].
  cbn [dict_rest]. rewrite <- IH. reflexivity.
Qed.

Lemma weight_list (l : list value) :
  weight (VList l) = S (list_sum (map weight l)).
Proof.
  cbn [weight]. f_equal. induction l as [|x l IH]; [reflexivity|].
  change (list_sum (map weight (x :: l)))
    with (weight x + list_sum (map weight l)).
  f_equal. exact IH.
Qed.

Lemma weight_dict (d : list (string * value)) :
  weight (VDict d) = S (list_sum (map (fun kv => weight (snd kv)) d)).
Proof.
  cbn [weight]. f_equal. induction d as [|[k x] d IH]; [reflexivity|].
  change (list_sum (map (fun kv => weight (snd kv)) ((k, x) :: d)))
    with (weight x + list_sum (map (fun kv => weight (snd kv)) d)).
  f_equal. exact IH.
Qed.

Lemma weight_pos (v : value) : 1 <= weight v.
Proof. destruct v; cbn [weight]; lia. Qed.

Lemma weights_length (l : list value) :
  List.length l <= list_sum (map weight l).
Proof.
  induction l as [|x l IH]; [apply Nat.le_refl|].
  change (list_sum (map weight (x :: l)))
    with (weight x + list_sum (map weight l)).
  cbn [List.length]. pose proof (weight_pos x). lia.
Qed.

Lemma dict_weights_length (d : list (string * value)) :
  List.length d <= list_sum (map (fun kv => weight (snd kv)) d).
Proof.
  induction d as [|x l IH]; [apply Nat.le_refl|].
  change (list_sum (map (fun kv => weight (snd kv)) (x :: l)))
    with (weight (snd x) + list_sum (map (fun kv => weight (snd kv)) l)).
  cbn [List.length]. pose proof (weight_pos (snd x)). lia.
Qed.

Lemma keys_unique_list (l : list value) :
  keys_unique (VList l) = forallb keys_unique l.
Proof.
  cbn [keys_unique]. induction l as [|x l IH]; [reflexivity|].
  cbn [forallb]. now rewrite <- IH.
Qed.

Lemma keys_unique_dict (d : list (string * value)) :
  keys_unique (VDict d)
  = distinct (map fst d) && forallb (fun kv => keys_unique (snd kv)) d.
Proof.
  cbn [keys_unique]. f_equal. induction d as [|[k x] d IH]; [reflexivity|].
  cbn [forallb snd]. now rewrite <- IH.
Qed.

Lemma encode_int_head (z : Z) :
  exists c t, encode_int z = String c t
              /\ (is_digit c || Ascii.eqb c "-")%bool = true.
Proof.
  unfold encode_int. destruct z as [|p|p]; cbn [Z.to_int NilZero.string_of_int].
  - eexists _, _. split; reflexivity.
  - rewrite string_of_uint_nonnil by apply Unsigned.to_uint_nonnil.
    destruct (to_uint_head p) as (c & t & E & Hd & _).
    exists c, t. split; [exact E | now rewrite Hd].
  - eexists _, _. split; reflexivity.
Qed.

Lemma number_head_not_space (c : ascii) :
  (is_digit c || Ascii.eqb c "-")%bool = true ->
  is_ws c = false /\ Ascii.eqb c "]" = false.
Proof.
  destruct c as [[|] [|] [|] [|] [|] [|] [|] [|]];
    intros H; try discriminate H; split; reflexivity.
Qed.

(** The text of a value begins with a character that is neither white
    space nor a closing bracket. *)
Lemma iterencode_head (indent level : nat) (v : value) (s : string) :
  exists c t, iterencode indent level v ++ s = String c t
              /\ is_ws c = false /\ Ascii.eqb c "]" = false.
Proof.
  destruct v as [|[|]|z|x|[|x l]|[|[k x] d]];
    try (eexists _, _; split; [reflexivity | split; reflexivity]).
  destruct (encode_int_head z) as (c & t & E & H).
  exists c, (t ++ s). cbn [iterencode]. rewrite E.
  split; [reflexivity | now apply number_head_not_space].
Qed.

Lemma skip_ws_iterencode (indent level : nat) (v : value) (s : string) :
  skip_ws (iterencode indent level v ++ s) = iterencode indent level v ++ s.
Proof.
  destruct (iterencode_head indent level v s) as (c & t & E & Hw & _).
  rewrite E. cbn [skip_ws]. now rewrite Hw.
Qed.

Lemma existsb_eqb_app (k : string) (l1 l2 : list string) :
  existsb (String.eqb k) (l1 ++ l2)%list
  = existsb (String.eqb k) l1 || existsb (String.eqb k) l2.
Proof. apply existsb_app. Qed.

Lemma distinct_app_fresh (l1 l2 : list string) (k : string) :
  distinct (l1 ++ k :: l2)%list = true ->
  existsb (String.eqb k) l1 = false.
Proof.
  induction l1 as [|a l1 IH]; intros H; [reflexivity|].
  cbn [app distinct] in H. apply andb_true_iff in H as [Ha Hl].
  apply negb_true_iff in Ha. rewrite existsb_app in Ha.
  apply orb_false_iff in Ha as [_ Ha]. cbn [existsb] in Ha.
  apply orb_false_iff in Ha as [Ha _].
  cbn [existsb]. rewrite String.eqb_sym, Ha. exact (IH Hl).
Qed.

Lemma dict_set_fresh (acc : list (string * value)) (k : string) (x : value) :
  existsb (String.eqb k) (map fst acc) = false ->
  dict_set acc k x = (acc ++ [(k, x)])%list.
Proof.
  induction acc as [|[k' y] acc IH]; intros H; [reflexivity|].
  cbn [map fst existsb] in H. apply orb_false_iff in H as [Hk H].
  cbn [dict_set app]. rewrite Hk, (IH H). reflexivity.
Qed.

End EncodeFacts.

Section RoundTrip.

Lemma append_nil_r (a : string) : a ++ "" = a.
Proof. induction a as [|x a IH]; simpl; [reflexivity | now rewrite IH]. Qed.

Lemma list_sum_cons (a : nat) (l : list nat) :
  list_sum (a :: l) = a + list_sum l.
Proof. reflexivity. Qed.

Lemma encode_str_app (k z : string) :
  encode_str k ++ z = String dquote (escape k ++ String dquote z).
Proof. unfold encode_str. cbn [append]. now rewrite append_assoc. Qed.

Lemma scan_value_after_space (f : nat) (indent level : nat) (x : value)
      (pad tail : string) :
  skip_ws (pad ++ iterencode indent level x ++ tail)
  = skip_ws (iterencode indent level x ++ tail) ->
  round_trips x ->
  keys_unique x = true -> weight x <= f -> ends_number tail = true ->
  scan_value f (pad ++ iterencode indent level x ++ tail) = Some (x, tail).
Proof.
  intros Hpad HP Hu Hw Ht.
  rewrite <- scan_value_skip_ws, Hpad, skip_ws_iterencode.
  now apply HP.
Qed.

Lemma scan_elements_encode (indent level f : nat) (r : string) :
  forall (xs : list value) (x : value) (acc : list value) (n : nat),
    Forall round_trips (x :: xs) ->
    forallb keys_unique (x :: xs) = true ->
    list_sum (map weight (x :: xs)) <= f ->
    List.length (x :: xs) <= n ->
    scan_elements (scan_value f) n acc
      (newline_indent indent (S level) ++ iterencode indent (S level) x
         ++ list_rest indent level xs
         ++ newline_indent indent level ++ String "]" r)
    = Some (VList (acc ++ x :: xs)%list, r).
Proof.
  induction xs as [|y l IH]; intros x acc n HP Hu Hw Hn;
    (destruct n as [|n]; [cbn [List.length] in Hn; lia|]);
    pose proof (Forall_inv HP) as Hx;
    cbn [forallb] in Hu; apply andb_true_iff in Hu as [Hux Hul];
    cbn [map] in Hw; rewrite list_sum_cons in Hw.
  - change (list_sum []) with 0 in Hw. cbn [list_rest append].
    rewrite (scan_elements_last _ _ _ _
               (newline_indent indent level ++ String "]" r) r x).
    + reflexivity.
    + apply scan_value_after_space; try assumption; try reflexivity.
      * apply skip_ws_newline_indent.
      * lia.
    + now rewrite skip_ws_newline_indent.
  - cbn [list_rest]. rewrite !append_assoc. cbn [append].
    erewrite (scan_elements_more _ _ _ _ _ _ x).
    + rewrite IH.
      * now rewrite <- app_assoc.
      * exact (Forall_inv_tail HP).
      * exact Hul.
      * cbn [map] in *. lia.
      * cbn [List.length] in *. lia.
    + apply scan_value_after_space; try assumption; try reflexivity.
      * apply skip_ws_newline_indent.
      * lia.
    + reflexivity.
Qed.

Lemma scan_members_encode (indent level f : nat) (r : string) :
  forall (xs : list (string * value)) (k : string) (x : value)
         (acc : list (string * value)) (n : nat),
    Forall (fun kv => round_trips (snd kv)) ((k, x) :: xs) ->
    forallb (fun kv => keys_unique (snd kv)) ((k, x) :: xs) = true ->
    distinct (map fst (acc ++ (k, x) :: xs)%list) = true ->
    list_sum (map (fun kv => weight (snd kv)) ((k, x) :: xs)) <= f ->
    List.length ((k, x) :: xs) <= n ->
    scan_members (scan_value f) n acc
      (newline_indent indent (S level) ++ encode_str k ++ ": "
         ++ iterencode indent (S level) x
         ++ dict_rest indent level xs
         ++ newline_indent indent level ++ String "}" r)
    = Some (VDict (acc ++ (k, x) :: xs)%list, r).
Proof.
  induction xs as [|[k' y] l IH]; intros k x acc n HP Hu Hd Hw Hn;
    (destruct n as [|n]; [cbn [List.length] in Hn; lia|]);
    pose proof (Forall_inv HP) as Hx; cbn [snd] in Hx;
    cbn [forallb snd] in Hu; apply andb_true_iff in Hu as [Hux Hul];
    assert (Hfresh : dict_set acc k x = (acc ++ [(k, x)])%list)
      by (apply dict_set_fresh;
          rewrite map_app in Hd; exact (distinct_app_fresh _ _ _ Hd));
    cbn [map snd] in Hw; rewrite list_sum_cons in Hw.
  - change (list_sum []) with 0 in Hw.
    cbn [dict_rest]. rewrite encode_str_app. cbn [append].
    rewrite (scan_members_last _ _ _ _
               (escape k ++ String dquote
                  (String ":" (String " "
                     (iterencode indent (S level) x
                        ++ newline_indent indent level ++ String "}" r))))
               (String ":" (String " "
                  (iterencode indent (S level) x
                     ++ newline_indent indent level ++ String "}" r)))
               (String " "
                  (iterencode indent (S level) x
                     ++ newline_indent indent level ++ String "}" r))
               (newline_indent indent level ++ String "}" r) r k x).
    + now rewrite Hfresh.
    + apply (skip_ws_newline_indent indent (S level)
               (String dquote _)).
    + apply scan_string_escape.
    + reflexivity.
    + apply (scan_value_after_space f indent (S level) x " ");
        try assumption; try reflexivity. lia.
    + now rewrite skip_ws_newline_indent.
  - cbn [dict_rest]. rewrite !append_assoc, encode_str_app. cbn [append].
    set (tail := newline_indent indent (S level) ++ encode_str k' ++ ": "
                   ++ iterencode indent (S level) y
                   ++ dict_rest indent level l
                   ++ newline_indent indent level ++ String "}" r).
    rewrite (scan_members_more _ _ _ _
               (escape k ++ String dquote
                  (String ":" (String " "
                     (iterencode indent (S level) x ++ String "," tail))))
               (String ":" (String " "
                  (iterencode indent (S level) x ++ String "," tail)))
               (String " " (iterencode indent (S level) x ++ String "," tail))
               (String "," tail) tail k x).
    + rewrite Hfresh. subst tail. rewrite IH.
      * now rewrite <- app_assoc.
      * exact (Forall_inv_tail HP).
      * exact Hul.
      * now rewrite <- app_assoc.
      * cbn [map snd] in *. lia.
      * cbn [List.length] in *. lia.
    + apply (skip_ws_newline_indent indent (S level)
               (String dquote _)).
    + apply scan_string_escape.
    + reflexivity.
    + apply (scan_value_after_space f indent (S level) x " ");
        try assumption; try reflexivity. lia.
    + reflexivity.
Qed.

End RoundTrip.

Section RoundTripTheorem.

Lemma scan_iterencode (v : value) : round_trips v.
Proof.
  induction v as [| b | z | s | l IH | d IH] using value_nested_ind;
    intros indent level fuel r Hu Hw Hr;
    (destruct fuel as [|f];
     [exfalso;
      match type of Hw with weight ?v <= 0 => pose proof (weight_pos v) end;
      lia|]).
  - exact (expect_literal "null" VNone r).
  - destruct b.
    + exact (expect_literal "true" (VBool true) r).
    + exact (expect_literal "false" (VBool false) r).
  - cbn [iterencode].
    destruct (encode_int_head z) as (c & t & E & H).
    pose proof (scan_int_encode z r Hr) as Hs.
    rewrite E in *. cbn [append] in *.
    rewrite scan_value_number by exact H. now rewrite Hs.
  - cbn [iterencode]. rewrite encode_str_app.
    rewrite (scan_value_string f _ (escape s ++ String dquote r)) by reflexivity.
    now rewrite scan_string_escape.
  - destruct l as [|x xs]; [reflexivity|].
    rewrite iterencode_list, !append_assoc. cbn [append].
    rewrite keys_unique_list in Hu. rewrite weight_list in Hw.
    destruct (iterencode_head indent (S level) x
                (list_rest indent level xs
                   ++ newline_indent indent level ++ String "]" r))
      as (c & t & E & Hws & Hc).
    erewrite scan_value_array.
    + apply (scan_elements_encode indent level f r xs x []); try assumption.
      * lia.
      * pose proof (weights_length (x :: xs)). lia.
    + reflexivity.
    + rewrite skip_ws_newline_indent, skip_ws_iterencode. exact E.
    + exact Hc.
  - destruct d as [|[k x] xs]; [reflexivity|].
    rewrite iterencode_dict, !append_assoc. cbn [append].
    rewrite keys_unique_dict in Hu. apply andb_true_iff in Hu as [Hd Hu].
    rewrite weight_dict in Hw.
    erewrite scan_value_object.
    + apply (scan_members_encode indent level f r xs k x []); try assumption.
      * lia.
      * pose proof (dict_weights_length ((k, x) :: xs)). lia.
    + reflexivity.
    + rewrite skip_ws_newline_indent, encode_str_app. reflexivity.
Qed.

Lemma length_list_rest (indent level : nat) (xs : list value) :
  Forall (fun x => forall indent level,
              weight x <= String.length (iterencode indent level x)) xs ->
  list_sum (map weight xs) <= String.length (list_rest indent level xs).
Proof.
  induction 1 as [|x l Hx _ IH]; [apply Nat.le_refl|].
  cbn [map list_rest]. rewrite list_sum_cons, !length_append.
  specialize (Hx indent (S level)). lia.
Qed.

Lemma length_dict_rest (indent level : nat) (xs : list (string * value)) :
  Forall (fun kv => forall indent level,
              weight (snd kv) <= String.length (iterencode indent level (snd kv)))
         xs ->
  list_sum (map (fun kv => weight (snd kv)) xs)
  <= String.length (dict_rest indent level xs).
Proof.
  induction 1 as [|[k x] l Hx _ IH]; [apply Nat.le_refl|].
  cbn [map dict_rest snd] in *. rewrite list_sum_cons, !length_append.
  specialize (Hx indent (S level)). lia.
Qed.

(** A text has at least as many characters as the value has nodes, so
    the fuel [loads] starts from is enough. *)
Lemma weight_le_length (v : value) (indent level : nat) :
  weight v <= String.length (iterencode indent level v).
Proof.
  revert indent level.
  induction v as [| b | z | s | l IH | d IH] using value_nested_ind;
    intros indent level.
  - cbn. lia.
  - destruct b; cbn; lia.
  - cbn [iterencode weight].
    destruct (encode_int_head z) as (c & t & E & _). rewrite E. cbn. lia.
  - cbn [iterencode weight]. unfold encode_str. cbn [String.length]. lia.
  - destruct l as [|x xs]; [cbn; lia|].
    rewrite iterencode_list, weight_list. cbn [map].
    rewrite list_sum_cons, !length_append.
    pose proof (Forall_inv IH indent (S level)).
    pose proof (length_list_rest indent level xs (Forall_inv_tail IH)).
    cbn [String.length]. lia.
  - destruct d as [|[k x] xs]; [cbn; lia|].
    rewrite iterencode_dict, weight_dict. cbn [map snd].
    rewrite list_sum_cons, !length_append.
    pose proof (Forall_inv IH indent (S level)) as Hx. cbn [snd] in Hx.
    pose proof (length_dict_rest indent level xs (Forall_inv_tail IH)).
    cbn [String.length]. lia.
Qed.

Lemma loads_dumps (v : value) (indent : nat) :
  keys_unique v = true -> loads (dumps v indent) = Some v.
Proof.
  intros Hu. unfold loads, dumps.
  rewrite <- (append_nil_r (iterencode indent 0 v)) at 2.
  rewrite (scan_iterencode v indent 0 _ "" Hu); [reflexivity | | reflexivity].
  pose proof (weight_le_length v indent 0). lia.
Qed.

End RoundTripTheorem.

(* ------------------------------------------------------------------ *)
(** * Dictionaries and stores *)

Section StoreFacts.

Lemma dict_get_In {A : Type} (d : list (string * A)) (k : string) (v : A) :
  dict_get d k = Some v -> In (k, v) d.
Proof.
  induction d as [|[k' v'] d IH]; [discriminate|].
  cbn [dict_get]. destruct (String.eqb_spec k k') as [-> | _].
  - intros H. injection H as ->. now left.
  - intros H. right. exact (IH H).
Qed.

Lemma In_dict_get {A : Type} (d : list (string * A)) (k : string) (v : A) :
  distinct (map fst d) = true -> In (k, v) d -> dict_get d k = Some v.
Proof.
  induction d as [|[k' v'] d IH]; intros Hd Hin; [contradiction|].
  cbn [map fst distinct] in Hd. apply andb_true_iff in Hd as [Hk Hd].
  apply negb_true_iff in Hk. cbn [dict_get].
  destruct Hin as [E | Hin].
  - injection E as -> ->. now rewrite String.eqb_refl.
  - destruct (String.eqb_spec k k') as [-> | _]; [|exact (IH Hd Hin)].
    exfalso. apply (in_map fst) in Hin. cbn [fst] in Hin.
    assert (Ht : existsb (String.eqb k') (map fst d) = true).
    { apply existsb_exists. exists k'. split; [exact Hin | apply String.eqb_refl]. }
    congruence.
Qed.

Lemma dict_get_forallb {A : Type} (p : A -> bool) (d : list (string * A))
      (k : string) (v : A) :
  forallb (fun kv => p (snd kv)) d = true -> dict_get d k = Some v -> p v = true.
Proof.
  intros Hall Hget. apply dict_get_In in Hget.
  rewrite forallb_forall in Hall. exact (Hall _ Hget).
Qed.

Lemma keys_unique_getitem (record x : value) (k : string) :
  keys_unique record = true -> getitem record k = Ok x -> keys_unique x = true.
Proof.
  destruct record as [| | | | |d]; try discriminate.
  rewrite keys_unique_dict. intros Hu Hget. apply andb_true_iff in Hu as [_ Hu].
  unfold getitem in Hget.
  destruct (dict_get d k) as [y|] eqn:E; [|discriminate].
  injection Hget as ->. exact (dict_get_forallb keys_unique d k x Hu E).
Qed.

Lemma resources_of_entries (st : store) (ds : list Resource) :
  resources_of st = Ok ds ->
  Forall2 (fun entry d => resource_of (fst entry) (snd entry) = Ok d) st ds.
Proof.
  revert ds; induction st as [|[k record] st IH]; intros ds H.
  - injection H as <-. constructor.
  - cbn [resources_of] in H.
    destruct (resource_of k record) as [r|e] eqn:E; [|discriminate].
    destruct (resources_of st) as [rs|e]; [|discriminate].
    injection H as <-. constructor; [exact E | now apply IH].
Qed.

Lemma resource_of_fields (k : string) (record : value) (d : Resource) :
  resource_of k record = Ok d ->
  uri d = "pokemon://" ++ k
  /\ getitem record "name" = Ok (VStr (name d))
  /\ mimeType d = "application/json"
  /\ description d = "Information about " ++ name d.
Proof.
  unfold resource_of.
  destruct (getitem record "name") as [[| | |n| |]|e]; try discriminate.
  intros H. injection H as <-. repeat split.
Qed.


Lemma lower_char_idem (c : ascii) : lower_char (lower_char c) = lower_char c.
Proof. destruct c as [[|] [|] [|] [|] [|] [|] [|] [|]]; reflexivity. Qed.

Lemma lower_idem (s : string) : lower (lower s) = lower s.
Proof.
  induction s as [|c s IH]; [reflexivity|].
  cbn [lower]. now rewrite lower_char_idem, IH.
Qed.

Lemma lower_char_not_upper (c : ascii) : is_upper (lower_char c) = false.
Proof. destruct c as [[|] [|] [|] [|] [|] [|] [|] [|]]; reflexivity. Qed.

End StoreFacts.

(* ------------------------------------------------------------------ *)
(** * Further properties of the handlers *)

(** X2 — on any store whose records have no key twice, whatever
    [read_resource] returns is the text of the record stored under the
    identifier taken from the URI, and decodes to that record. *)
Theorem X2_read_resource_decodes (st : store) (uri body : string) :
  forallb (fun kv => keys_unique (snd kv)) st = true ->
  fst (read_resource uri st) = Ok body ->
  exists record,
    dict_get st (replace "pokemon://" "" uri) = Some record
    /\ body = dumps record 2
    /\ loads body = Some record.
Proof.
  intros Hu H. rewrite read_resource_unfold in H. cbn [fst] in H.
  destruct (dict_get st (replace "pokemon://" "" uri)) as [record|] eqn:E;
    [|discriminate].
  injection H as <-. exists record. split; [reflexivity|]. split; [reflexivity|].
  apply loads_dumps. exact (dict_get_forallb keys_unique st _ record Hu E).
Qed.

Lemma X2_witness :
  forallb (fun kv => keys_unique (snd kv)) POKEMON_DATA = true
  /\ fst (read_resource "pokemon://pikachu" POKEMON_DATA)
     = Ok (dumps pikachu_record 2)
  /\ exists record,
       dict_get POKEMON_DATA (replace "pokemon://" "" "pokemon://pikachu")
       = Some record
       /\ dumps pikachu_record 2 = dumps record 2
       /\ loads (dumps pikachu_record 2) = Some record.
Proof.
  split; [reflexivity|].
  assert (H : fst (read_resource "pokemon://pikachu" POKEMON_DATA)
              = Ok (dumps pikachu_record 2))
    by (rewrite read_resource_unfold; reflexivity).
  split; [exact H|].
  exact (X2_read_resource_decodes POKEMON_DATA "pokemon://pikachu"
           (dumps pikachu_record 2) eq_refl H).
Defined.

(** X3 — [read_resource] does not ask for the scheme: on every store, a
    URI is read like the same URI with ["pokemon://"] put in front of it, so
    a bare identifier is read like the URI built from it. *)
Theorem X3_scheme_prefix_optional (uri : string) (st : store) :
  read_resource ("pokemon://" ++ uri) st = read_resource uri st.
Proof.
  rewrite !read_resource_unfold, replace_match by discriminate. reflexivity.
Qed.

(** X4 — [get_stats] only sees the lower-cased name: on every store a
    string argument is answered like its lower-cased form, and that form has
    no capital letter left in it. *)
Theorem X4_argument_canonical_form
        (a : list (string * value)) (s : string) (st : store) :
  dict_get a "pokemon" = Some (VStr s) ->
  call_tool "get_stats" (VDict a) st
  = call_tool "get_stats" (VDict [("pokemon", VStr (lower s))]) st
  /\ lower (lower s) = lower s
  /\ forallb (fun c => negb (is_upper c)) (list_ascii_of_string (lower s)) = true.
Proof.
  intros H. split; [|split].
  - rewrite (call_tool_get_stats _ _ _ H).
    rewrite (call_tool_get_stats [("pokemon", VStr (lower s))] (lower s) st)
      by reflexivity.
    now rewrite lower_idem.
  - apply lower_idem.
  - clear H. induction s as [|c s IH]; [reflexivity|].
    cbn [lower list_ascii_of_string forallb].
    rewrite lower_char_not_upper. exact IH.
Qed.

Lemma X4_witness :
  dict_get [("pokemon", VStr "PikaCHU")] "pokemon" = Some (VStr "PikaCHU")
  /\ call_tool "get_stats" (VDict [("pokemon", VStr "PikaCHU")]) POKEMON_DATA
     = call_tool "get_stats" (VDict [("pokemon", VStr (lower "PikaCHU"))])
         POKEMON_DATA.
Proof.
  split; [reflexivity|].
  exact (proj1 (X4_argument_canonical_form [("pokemon", VStr "PikaCHU")]
                  "PikaCHU" POKEMON_DATA eq_refl)).
Defined.

(** X5 — what [call_tool] returns: on a store whose records have no key
    twice, whenever [call_tool] returns normally the operation was
    ["get_stats"], the arguments were a dictionary with a string under
    ["pokemon"], and the result is exactly one text block whose text decodes
    to the not-found object when the lower-cased name is not a key, and
    otherwise to an object with the record's own ["name"] and ["stats"]. *)
Theorem X5_call_tool_returns_one_decodable_block
        (st : store) (name : string) (arguments : value)
        (blocks : list TextContent) :
  forallb (fun kv => keys_unique (snd kv)) st = true ->
  fst (call_tool name arguments st) = Ok blocks ->
  exists d s body payload,
    name = "get_stats"
    /\ arguments = VDict d
    /\ dict_get d "pokemon" = Some (VStr s)
    /\ blocks = [ {| type := "text"; text := body |} ]
    /\ loads body = Some payload
    /\ match dict_get st (lower s) with
       | None =>
           payload
           = VDict [("error", VStr ("Pokemon " ++ lower s ++ " not found"))]
       | Some record =>
           (exists n stats, payload = VDict [("name", n); ("stats", stats)])
           /\ getitem payload "name" = getitem record "name"
           /\ getitem payload "stats" = getitem record "stats"
       end.
Proof.
  intros Hst Hret.
  destruct (String.eqb_spec name "get_stats") as [-> | Hne].
  2: { unfold call_tool in Hret.
       destruct (String.eqb_spec name "get_stats") as [E | _];
         [contradiction | discriminate Hret]. }
  destruct arguments as [| | | | |d];
    try (unfold call_tool, bind, lift in Hret;
         cbn [String.eqb Ascii.eqb Bool.eqb getitem fst] in Hret;
         discriminate Hret).
  destruct (dict_get d "pokemon") as [[| | |s| |]|] eqn:E;
    try (unfold call_tool, bind, lift in Hret;
         cbn [String.eqb Ascii.eqb Bool.eqb] in Hret;
         unfold getitem in Hret; rewrite E in Hret;
         cbn [lower_method fst] in Hret; discriminate Hret).
  rewrite (call_tool_get_stats _ _ _ E) in Hret. cbn [fst] in Hret.
  exists d, s.
  destruct (dict_get st (lower s)) as [record|] eqn:Eg.
  - pose proof (dict_get_forallb keys_unique st _ record Hst Eg) as Hu.
    destruct (getitem record "name") as [n|e] eqn:En; [|discriminate Hret].
    destruct (getitem record "stats") as [stats|e] eqn:Es; [|discriminate Hret].
    injection Hret as <-.
    exists (dumps (VDict [("name", n); ("stats", stats)]) 2),
      (VDict [("name", n); ("stats", stats)]).
    split; [reflexivity|]. split; [reflexivity|]. split; [exact E|].
    split; [reflexivity|]. split.
    + apply loads_dumps. rewrite keys_unique_dict. cbn [map fst forallb snd].
      rewrite (keys_unique_getitem _ _ _ Hu En),
        (keys_unique_getitem _ _ _ Hu Es). reflexivity.
    + split; [now exists n, stats|]. split; reflexivity.
  - injection Hret as <-. eexists _, _.
    split; [reflexivity|]. split; [reflexivity|]. split; [exact E|].
    split; [reflexivity|]. split; [apply loads_error_payload|].
    reflexivity.
Qed.

Lemma X5_witness :
  forallb (fun kv => keys_unique (snd kv)) POKEMON_DATA = true
  /\ fst (call_tool "get_stats" (VDict [("pokemon", VStr "Mew")]) POKEMON_DATA)
     = Ok [ {| type := "text";
               text := dumps (VDict [("error",
                         VStr "Pokemon mew not found")]) 2 |} ]
  /\ exists d s body payload,
       "get_stats" = "get_stats"
       /\ VDict [("pokemon", VStr "Mew")] = VDict d
       /\ dict_get d "pokemon" = Some (VStr s)
       /\ [ {| type := "text";
               text := dumps (VDict [("error",
                         VStr "Pokemon mew not found")]) 2 |} ]
          = [ {| type := "text"; text := body |} ]
       /\ loads body = Some payload
       /\ match dict_get POKEMON_DATA (lower s) with
          | None =>
              payload
              = VDict [("error", VStr ("Pokemon " ++ lower s ++ " not found"))]
          | Some record =>
              (exists n stats, payload = VDict [("name", n); ("stats", stats)])
              /\ getitem payload "name" = getitem record "name"
              /\ getitem payload "stats" = getitem record "stats"
          end.
Proof.
  split; [reflexivity|]. split; [reflexivity|].
  exact (X5_call_tool_returns_one_decodable_block POKEMON_DATA "get_stats"
           (VDict [("pokemon", VStr "Mew")]) _ eq_refl eq_refl).
Defined.

(** X6 — on every store, [get_stats] raises before it looks anything up
    when the arguments carry no string under ["pokemon"]: [TypeError] when
    they are no dictionary, [KeyError("pokemon")] when the key is missing,
    [AttributeError] when its value is not a string. *)
Theorem X6_get_stats_rejects_other_arguments (arguments : value) (st : store) :
  (forall d s, arguments = VDict d -> dict_get d "pokemon" <> Some (VStr s)) ->
  call_tool "get_stats" arguments st
  = (Raise match arguments with
           | VDict d =>
               match dict_get d "pokemon" with
               | None => KeyError "pokemon"
               | Some _ => AttributeError
               end
           | _ => TypeError
           end, st).
Proof.
  intros H. unfold call_tool, bind, lift.
  cbn [String.eqb Ascii.eqb Bool.eqb].
  destruct arguments as [| | | | |d]; try reflexivity.
  unfold getitem. specialize (H d).
  destruct (dict_get d "pokemon") as [[| | |s| |]|]; try reflexivity.
  exfalso. exact (H s eq_refl eq_refl).
Qed.

Lemma X6_witness :
  (forall d s, VDict [("pokemon", VInt 25)] = VDict d ->
               dict_get d "pokemon" <> Some (VStr s))
  /\ call_tool "get_stats" (VDict [("pokemon", VInt 25)]) POKEMON_DATA
     = (Raise AttributeError, POKEMON_DATA).
Proof.
  assert (H : forall d s, VDict [("pokemon", VInt 25)] = VDict d ->
                          dict_get d "pokemon" <> Some (VStr s)).
  { intros d s E. injection E as <-. discriminate. }
  split; [exact H|].
  exact (X6_get_stats_rejects_other_arguments
           (VDict [("pokemon", VInt 25)]) POKEMON_DATA H).
Defined.

(** X7 — the two ways to a record agree: on any store whose records have
    no key twice, whenever [read_resource] returns a text for a URI and
    [get_stats] returns blocks for a name whose lower-cased form is the
    identifier of that URI, there is exactly one block, both texts decode,
    and to the same ["name"] and the same ["stats"]. *)
Theorem X7_resource_and_tool_agree
        (st : store) (uri s body : string) (a : list (string * value))
        (blocks : list TextContent) :
  forallb (fun kv => keys_unique (snd kv)) st = true ->
  dict_get a "pokemon" = Some (VStr s) ->
  replace "pokemon://" "" uri = lower s ->
  fst (read_resource uri st) = Ok body ->
  fst (call_tool "get_stats" (VDict a) st) = Ok blocks ->
  exists t resource payload,
    blocks = [t]
    /\ loads body = Some resource
    /\ loads (text t) = Some payload
    /\ getitem payload "name" = getitem resource "name"
    /\ getitem payload "stats" = getitem resource "stats".
Proof.
  intros Hst Ha Hid Hr Hc.
  rewrite read_resource_unfold, Hid in Hr. cbn [fst] in Hr.
  rewrite (call_tool_get_stats _ _ _ Ha) in Hc. cbn [fst] in Hc.
  destruct (dict_get st (lower s)) as [record|] eqn:Eg; [|discriminate Hr].
  pose proof (dict_get_forallb keys_unique st _ record Hst Eg) as Hu.
  injection Hr as <-.
  destruct (getitem record "name") as [n|e] eqn:En; [|discriminate Hc].
  destruct (getitem record "stats") as [stats|e] eqn:Es; [|discriminate Hc].
  injection Hc as <-.
  eexists _, record, (VDict [("name", n); ("stats", stats)]).
  split; [reflexivity|]. split; [now apply loads_dumps|]. split.
  - cbn [text]. apply loads_dumps. rewrite keys_unique_dict.
    cbn [map fst forallb snd].
    rewrite (keys_unique_getitem _ _ _ Hu En),
      (keys_unique_getitem _ _ _ Hu Es). reflexivity.
  - rewrite En, Es. split; reflexivity.
Qed.

Lemma X7_witness :
  forallb (fun kv => keys_unique (snd kv)) POKEMON_DATA = true
  /\ dict_get [("pokemon", VStr "PIKACHU")] "pokemon" = Some (VStr "PIKACHU")
  /\ replace "pokemon://" "" "pokemon://pikachu" = lower "PIKACHU"
  /\ fst (read_resource "pokemon://pikachu" POKEMON_DATA)
     = Ok (dumps pikachu_record 2)
  /\ exists blocks,
       fst (call_tool "get_stats" (VDict [("pokemon", VStr "PIKACHU")])
              POKEMON_DATA) = Ok blocks
       /\ exists t resource payload,
            blocks = [t]
            /\ loads (dumps pikachu_record 2) = Some resource
            /\ loads (text t) = Some payload
            /\ getitem payload "name" = getitem resource "name"
            /\ getitem payload "stats" = getitem resource "stats".
Proof.
  split; [reflexivity|]. split; [reflexivity|]. split; [reflexivity|].
  assert (Hr : fst (read_resource "pokemon://pikachu" POKEMON_DATA)
               = Ok (dumps pikachu_record 2))
    by (rewrite read_resource_unfold; reflexivity).
  split; [exact Hr|].
  eexists. split; [reflexivity|].
  exact (X7_resource_and_tool_agree POKEMON_DATA "pokemon://pikachu" "PIKACHU"
           _ [("pokemon", VStr "PIKACHU")] _ eq_refl eq_refl eq_refl Hr eq_refl).
Defined.

Section ListingFacts.

Lemma Forall2_In_r {A B : Type} (R : A -> B -> Prop) (l : list A)
      (l' : list B) (b : B) :
  Forall2 R l l' -> In b l' -> exists a, In a l /\ R a b.
Proof.
  induction 1 as [|a b' l l' Hab _ IH]; intros Hin; [contradiction|].
  destruct Hin as [<- | Hin].
  - exists a. split; [now left | exact Hab].
  - destruct (IH Hin) as (a' & Ha' & HR). exists a'. split; [now right | exact HR].
Qed.

(** A listed descriptor comes from an entry of the store. *)
Lemma listed_entry (st : store) (ds : list Resource) (d : Resource) :
  fst (list_resources st) = Ok ds ->
  In d ds ->
  exists k record,
    In (k, record) st
    /\ uri d = "pokemon://" ++ k
    /\ getitem record "name" = Ok (VStr (name d)).
Proof.
  intros Hl Hin.
  change (fst (list_resources st)) with (resources_of st) in Hl.
  apply resources_of_entries in Hl.
  destruct (Forall2_In_r _ _ _ _ Hl Hin) as ([k record] & Hst & Hd).
  apply resource_of_fields in Hd as (Hu & Hn & _).
  now exists k, record.
Qed.

End ListingFacts.

(** X9 — on any store, [list_resources] returns normally only when every
    record is a dictionary whose ["name"] is a string; the list then has one
    descriptor per entry, in the order of the store, with the record's name,
    the MIME type ["application/json"] and the description ["Information
    about <name>"]. *)
Theorem X9_list_resources_describes_every_entry
        (st : store) (ds : list Resource) :
  fst (list_resources st) = Ok ds ->
  forallb (fun kv => has_string_name (snd kv)) st = true
  /\ List.length ds = List.length st
  /\ Forall2 (fun kv d =>
                getitem (snd kv) "name" = Ok (VStr (name d))
                /\ mimeType d = "application/json"
                /\ description d = "Information about " ++ name d) st ds.
Proof.
  change (fst (list_resources st)) with (resources_of st).
  intros Hl. apply resources_of_entries in Hl.
  induction Hl as [|[k record] d st ds Hd _ (IH1 & IH2 & IH3)];
    [repeat split; constructor|].
  apply resource_of_fields in Hd as (_ & Hn & Hm & Hdesc).
  cbn [snd fst] in Hn. cbn [forallb snd fst List.length]. split; [|split].
  - unfold has_string_name at 1. now rewrite Hn, IH1.
  - now rewrite IH2.
  - constructor; [repeat split; assumption | exact IH3].
Qed.

Lemma X9_witness :
  fst (list_resources POKEMON_DATA)
  = Ok [ {| uri := "pokemon://pikachu"; name := "Pikachu";
            mimeType := "application/json";
            description := "Information about Pikachu" |} ]
  /\ forallb (fun kv => has_string_name (snd kv)) POKEMON_DATA = true
  /\ List.length [ {| uri := "pokemon://pikachu"; name := "Pikachu";
                      mimeType := "application/json";
                      description := "Information about Pikachu" |} ]
     = List.length POKEMON_DATA.
Proof.
  split; [reflexivity|].
  destruct (X9_list_resources_describes_every_entry POKEMON_DATA _ eq_refl)
    as (H1 & H2 & _).
  split; [exact H1 | exact H2].
Defined.

(** X10 — where every key is the lower-cased display name of its record
    (as ["pikachu"] is for ["Pikachu"]) and the keys are distinct, every name
    that [list_resources] shows is known to [get_stats]: called with the
    name as shown, it finds the record of that name, never answers with the
    not-found object, and whenever it returns, it returns the one block with
    the text of [{"name": <name>, "stats": <the record's stats>}]. *)
Theorem X10_listed_names_are_found
        (st : store) (ds : list Resource) (d : Resource) :
  distinct (map fst st) = true ->
  forallb keyed_by_lower_name st = true ->
  fst (list_resources st) = Ok ds ->
  In d ds ->
  exists record,
    dict_get st (lower (name d)) = Some record
    /\ getitem record "name" = Ok (VStr (name d))
    /\ fst (call_tool "get_stats" (VDict [("pokemon", VStr (name d))]) st)
       <> Ok [ {| type := "text";
                  text := dumps (VDict [("error",
                            VStr ("Pokemon " ++ lower (name d)
                                    ++ " not found"))]) 2 |} ]
    /\ forall blocks,
         fst (call_tool "get_stats" (VDict [("pokemon", VStr (name d))]) st)
         = Ok blocks ->
         exists stats,
           getitem record "stats" = Ok stats
           /\ blocks
              = [ {| type := "text";
                     text := dumps (VDict [ ("name", VStr (name d));
                                            ("stats", stats) ]) 2 |} ].
Proof.
  intros Hd Hkey Hl Hin.
  destruct (listed_entry st ds d Hl Hin) as (k & record & Hst & _ & Hn).
  rewrite forallb_forall in Hkey. specialize (Hkey _ Hst).
  unfold keyed_by_lower_name in Hkey. cbn [fst snd] in Hkey.
  rewrite Hn in Hkey. apply String.eqb_eq in Hkey. subst k.
  pose proof (In_dict_get st _ record Hd Hst) as Hget.
  exists record. split; [exact Hget|]. split; [exact Hn|].
  rewrite (call_tool_get_stats [("pokemon", VStr (name d))] (name d) st)
    by reflexivity.
  cbn [fst]. rewrite Hget, Hn.
  destruct (getitem record "stats") as [stats|e]; split.
  - intros H. apply (dumps_stats_not_error (VStr (name d)) stats
                       ("Pokemon " ++ lower (name d) ++ " not found")).
    congruence.
  - intros blocks H. injection H as <-. now exists stats.
  - discriminate.
  - intros blocks H. discriminate H.
Qed.

Lemma X10_witness :
  distinct (map fst POKEMON_DATA) = true
  /\ forallb keyed_by_lower_name POKEMON_DATA = true
  /\ fst (list_resources POKEMON_DATA)
     = Ok [ {| uri := "pokemon://pikachu"; name := "Pikachu";
               mimeType := "application/json";
               description := "Information about Pikachu" |} ]
  /\ exists record,
       dict_get POKEMON_DATA (lower "Pikachu") = Some record
       /\ getitem record "name" = Ok (VStr "Pikachu").
Proof.
  split; [reflexivity|]. split; [reflexivity|]. split; [reflexivity|].
  destruct (X10_listed_names_are_found POKEMON_DATA _
              {| uri := "pokemon://pikachu"; name := "Pikachu";
                 mimeType := "application/json";
                 description := "Information about Pikachu" |}
              eq_refl eq_refl eq_refl (or_introl eq_refl))
    as (record & H1 & H2 & _).
  exists record. split; [exact H1 | exact H2].
Defined.

Section PlainTextFacts.

Lemma plain_text_app (a b : string) :
  plain_text (a ++ b) = plain_text a && plain_text b.
Proof.
  induction a as [|c a IH]; [reflexivity|].
  cbn [append plain_text]. now rewrite IH, andb_assoc.
Qed.

Lemma plain_text_escape_char (c : ascii) : plain_text (escape_char c) = true.
Proof. destruct c as [[|] [|] [|] [|] [|] [|] [|] [|]]; reflexivity. Qed.

Lemma plain_text_escape (s : string) : plain_text (escape s) = true.
Proof.
  induction s as [|c s IH]; [reflexivity|].
  cbn [escape]. now rewrite plain_text_app, plain_text_escape_char, IH.
Qed.

Lemma plain_text_encode_str (s : string) : plain_text (encode_str s) = true.
Proof.
  unfold encode_str. cbn [plain_text].
  now rewrite plain_text_app, plain_text_escape.
Qed.

Lemma plain_text_uint (u : Decimal.uint) :
  plain_text (NilEmpty.string_of_uint u) = true.
Proof. induction u; cbn [NilEmpty.string_of_uint plain_text]; auto. Qed.

Lemma plain_text_encode_int (z : Z) : plain_text (encode_int z) = true.
Proof.
  unfold encode_int.
  destruct z as [|p|p]; cbn [Z.to_int NilZero.string_of_int];
    [reflexivity | |];
    rewrite string_of_uint_nonnil by apply Unsigned.to_uint_nonnil;
    [|cbn [plain_text]]; apply plain_text_uint.
Qed.

Lemma plain_text_newline_indent (indent level : nat) :
  plain_text (newline_indent indent level) = true.
Proof.
  unfold newline_indent. cbn [plain_text].
  induction (indent * level) as [|n IH]; [reflexivity | exact IH].
Qed.

Lemma plain_text_list_rest (indent level : nat) (xs : list value) :
  Forall (fun x => forall level, plain_text (iterencode indent level x) = true)
         xs ->
  plain_text (list_rest indent level xs) = true.
Proof.
  induction 1 as [|y l Hy _ IH]; [reflexivity|].
  cbn [list_rest]. rewrite !plain_text_app.
  now rewrite plain_text_newline_indent, Hy, IH.
Qed.

Lemma plain_text_dict_rest (indent level : nat) (xs : list (string * value)) :
  Forall (fun kv => forall level,
              plain_text (iterencode indent level (snd kv)) = true) xs ->
  plain_text (dict_rest indent level xs) = true.
Proof.
  induction 1 as [|[k y] l Hy _ IH]; [reflexivity|].
  cbn [dict_rest snd] in *. rewrite !plain_text_app.
  now rewrite plain_text_newline_indent, plain_text_encode_str, Hy, IH.
Qed.

Lemma plain_text_iterencode (v : value) (indent level : nat) :
  plain_text (iterencode indent level v) = true.
Proof.
  revert level.
  induction v as [| b | z | s | l IH | d IH] using value_nested_ind;
    intros level.
  - reflexivity.
  - destruct b; reflexivity.
  - apply plain_text_encode_int.
  - apply plain_text_encode_str.
  - destruct l as [|x xs]; [reflexivity|].
    rewrite iterencode_list, !plain_text_app, !plain_text_newline_indent,
      (Forall_inv IH), (plain_text_list_rest _ _ _ (Forall_inv_tail IH)).
    reflexivity.
  - destruct d as [|[k x] xs]; [reflexivity|].
    pose proof (Forall_inv IH) as Hx. cbn [snd] in Hx.
    rewrite iterencode_dict, !plain_text_app, !plain_text_newline_indent,
      plain_text_encode_str, Hx,
      (plain_text_dict_rest _ _ _ (Forall_inv_tail IH)).
    reflexivity.
Qed.

End PlainTextFacts.



(** X12 — what the handlers send is plain ASCII: on every store, the text
    [read_resource] returns and every text block [call_tool] returns consist
    of printable ASCII characters and line feeds only, whatever characters
    the records and the argument hold. *)
Theorem X12_texts_are_plain_ascii
        (st : store) (uri body name : string) (arguments : value)
        (blocks : list TextContent) (t : TextContent) :
  (fst (read_resource uri st) = Ok body -> plain_text body = true)
  /\ (fst (call_tool name arguments st) = Ok blocks ->
      In t blocks -> plain_text (text t) = true).
Proof.
  split.
  - intros Hr. rewrite read_resource_unfold in Hr. cbn [fst] in Hr.
    destruct (dict_get st (replace "pokemon://" "" uri)); [|discriminate].
    injection Hr as <-. apply plain_text_iterencode.
  - unfold call_tool, bind, load_POKEMON_DATA, lift, ret, raise.
    repeat match goal with
           | |- context [match ?x with _ => _ end] => destruct x
           | |- context [if ?x then _ else _] => destruct x
           end; cbn [fst]; intros Hc Hin; try discriminate Hc;
      injection Hc as <-; destruct Hin as [<- | []];
      apply plain_text_iterencode.
Qed.

Lemma X12_witness :
  fst (read_resource "pokemon://pikachu" POKEMON_DATA)
  = Ok (dumps pikachu_record 2)
  /\ fst (call_tool "get_stats"
            (VDict [("pokemon", VStr (String (ascii_of_nat 233) "vee"))])
            POKEMON_DATA)
     = Ok [ {| type := "text";
               text := dumps (VDict [("error",
                         VStr ("Pokemon " ++ String (ascii_of_nat 233) "vee"
                                 ++ " not found"))]) 2 |} ]
  /\ plain_text (dumps pikachu_record 2) = true
  /\ plain_text (dumps (VDict [("error",
                   VStr ("Pokemon " ++ String (ascii_of_nat 233) "vee"
                           ++ " not found"))]) 2) = true.
Proof.
  assert (H1 : fst (read_resource "pokemon://pikachu" POKEMON_DATA)
               = Ok (dumps pikachu_record 2))
    by (rewrite read_resource_unfold; reflexivity).
  assert (H2 : fst (call_tool "get_stats"
                      (VDict [("pokemon", VStr (String (ascii_of_nat 233) "vee"))])
                      POKEMON_DATA)
               = Ok [ {| type := "text";
                         text := dumps (VDict [("error",
                                   VStr ("Pokemon " ++ String (ascii_of_nat 233) "vee"
                                           ++ " not found"))]) 2 |} ])
    by reflexivity.
  split; [exact H1|]. split; [exact H2|].
  split.
  - exact (proj1 (X12_texts_are_plain_ascii POKEMON_DATA "pokemon://pikachu"
                    (dumps pikachu_record 2) "get_stats" VNone []
                    {| type := "text"; text := "" |}) H1).
  - exact (proj2 (X12_texts_are_plain_ascii POKEMON_DATA "pokemon://pikachu"
                    (dumps pikachu_record 2) "get_stats" _ _ _)
             H2 (or_introl eq_refl)).
Defined.
